(** * Talkie: response caching in the HTTP request pipeline

    A shallow embedding of
    - [HttpClient.__init__] and [HttpClient.request]
      (src/talkie/core/client.py),
    - the [config] action of [cache_management] (src/talkie/cli/main.py),
    - the response cache they call into ([talkie.utils.cache]), whose
      module is not part of the sources and is modelled from the
      specification.

    Python values are embedded as follows: [str] is [string], [int] is [Z],
    [Optional[T]] is [option T], a [dict] that is only traversed is an
    association list (insertion order kept), a [dict] addressed by key is a
    [gmap]; an exception is a value of [Exn] and a call that may raise
    returns a sum.  Epoch seconds are integers.

    An object that defines neither [__bool__] nor [__len__] is truthy, so
    [if cached_response:] and [self.cache and ...] test for [None].  The
    calls to the logger have no effect on the result and are left out.
    Library functions (httpx, [json.dumps], [str], the hash of the key
    function) are parameters of the sections that use them. *)

From stdpp Require Import base option numbers list strings gmap pretty.
From Stdlib Require Import ZArith Lia Ascii String.

Set Warnings "-register-all".
Local Open Scope string_scope.

(** ** Strings *)

(** [str.upper] and [str.lower] on ASCII text, the alphabet of HTTP
    method names.  Bytes outside [a-z] / [A-Z] are left alone, while
    Python also maps letters outside ASCII.  No such letter has an
    upper-case form made of [G], [E] and [T] alone, so [upper m = "GET"]
    holds of exactly the strings [m] for which [m.upper() == "GET"]
    does, and the same goes for [PUT] and [PATCH].  It does not for
    [POST]: Python takes the long s (U+017F) to [S] and the ligatures
    U+FB05 and U+FB06 to [ST], so on a method spelt with one of these the
    comparison against [POST], and the upper-cased method itself, are
    outside this model, which is about method names in ASCII. *)
Definition upper_ascii (c : ascii) : ascii :=
  let n := nat_of_ascii c in
  if (97 <=? n)%nat && (n <=? 122)%nat then ascii_of_nat (n - 32) else c.

Definition lower_ascii (c : ascii) : ascii :=
  let n := nat_of_ascii c in
  if (65 <=? n)%nat && (n <=? 90)%nat then ascii_of_nat (n + 32) else c.

Fixpoint upper (s : string) : string :=
  match s with
  | EmptyString => EmptyString
  | String c s' => String (upper_ascii c) (upper s')
  end.

Fixpoint lower (s : string) : string :=
  match s with
  | EmptyString => EmptyString
  | String c s' => String (lower_ascii c) (lower s')
  end.

(** [needle in haystack] for strings. *)
Fixpoint contains (needle haystack : string) : bool :=
  String.prefix needle haystack ||
  match haystack with
  | EmptyString => false
  | String _ rest => contains needle rest
  end.

(** ** Python values *)

(** The [Any] of [Dict[str, Any]], restricted to what a JSON or form body
    can hold: the values [json.dumps] serializes.  A dictionary that
    holds another Python object (a set, bytes, a structure that contains
    itself) is outside this type. *)
Inductive PyValue : Type :=
| PyNone
| PyBool (b : bool)
| PyInt (z : Z)
| PyStr (s : string)
| PyList (items : list PyValue)
| PyDict (items : list (string * PyValue)).

Definition Dict : Type := list (string * PyValue).
Definition Headers : Type := list (string * string).

(** Truthiness of an [Optional[Dict]]: [None] and [{}] are falsy. *)
Definition dict_truthy (d : option Dict) : bool :=
  match d with
  | None => false
  | Some [] => false
  | Some (_ :: _) => true
  end.

(** ** Cache configuration *)

(** [CacheConfig]: the fields the tests construct and the CLI prints. *)
Record CacheConfig : Type := mkCacheConfig {
  enabled : bool;
  default_ttl : Z;
  max_entries : Z;
  max_size_mb : Z;
  cache_get : bool;
  cache_post : bool;
  cache_graphql : bool;
  cache_dir : string
}.

(** A value held by the mapping that [model_dump] produces. *)
Inductive ConfigValue : Type :=
| VBool (b : bool)
| VInt (z : Z)
| VStr (s : string).

Definition as_bool (v : ConfigValue) : option bool :=
  match v with VBool b => Some b | _ => None end.
Definition as_int (v : ConfigValue) : option Z :=
  match v with VInt z => Some z | _ => None end.
Definition as_str (v : ConfigValue) : option string :=
  match v with VStr s => Some s | _ => None end.

(** [CacheConfig.model_dump()]: every field under its own name. *)
Definition model_dump (c : CacheConfig) : gmap string ConfigValue :=
  <["enabled" := VBool (enabled c)]>
  (<["default_ttl" := VInt (default_ttl c)]>
  (<["max_entries" := VInt (max_entries c)]>
  (<["max_size_mb" := VInt (max_size_mb c)]>
  (<["cache_get" := VBool (cache_get c)]>
  (<["cache_post" := VBool (cache_post c)]>
  (<["cache_graphql" := VBool (cache_graphql c)]>
  (<["cache_dir" := VStr (cache_dir c)]> ∅))))))).

(** The invariant of the data model: numeric fields are non-negative. *)
Definition config_valid (c : CacheConfig) : Prop :=
  (0 <= default_ttl c)%Z /\ (0 <= max_entries c)%Z /\ (0 <= max_size_mb c)%Z.

Section Config.

(** The default cache directory depends on the platform. *)
Variable platform_cache_dir : string.

(** Modelled from the spec: the validation run by the [CacheConfig]
    constructor (talkie/utils/cache.py is missing).  It is kept abstract:
    the results below hold whatever values it rejects. *)
Variable validate : CacheConfig -> bool.

(** [CacheConfig()] (section 3 of the specification, [test_default_config]). *)
Definition default_config : CacheConfig :=
  {| enabled := true; default_ttl := 300; max_entries := 1000;
     max_size_mb := 100; cache_get := true; cache_post := false;
     cache_graphql := true; cache_dir := platform_cache_dir |}.

(** Read one keyword argument: the default when the key is missing, an
    error when the value has the wrong type. *)
Definition field {A} (conv : ConfigValue -> option A) (dflt : A)
    (key : string) (d : gmap string ConfigValue) : option A :=
  match d !! key with
  | None => Some dflt
  | Some v => conv v
  end.

(** Modelled from the spec: the constructor call on the dumped mapping, that is the constructor of the
    configuration model (talkie/utils/cache.py is missing): each field is
    taken from the keyword of its name, a missing keyword takes the
    default, and the result is validated.  [None] stands for the
    exception the constructor raises. *)
Definition CacheConfig_new (d : gmap string ConfigValue) : option CacheConfig :=
  e ← field as_bool (enabled default_config) "enabled" d;
  t ← field as_int (default_ttl default_config) "default_ttl" d;
  n ← field as_int (max_entries default_config) "max_entries" d;
  m ← field as_int (max_size_mb default_config) "max_size_mb" d;
  g ← field as_bool (cache_get default_config) "cache_get" d;
  p ← field as_bool (cache_post default_config) "cache_post" d;
  q ← field as_bool (cache_graphql default_config) "cache_graphql" d;
  dir ← field as_str (cache_dir default_config) "cache_dir" d;
  let c := mkCacheConfig e t n m g p q dir in
  if validate c then Some c else None.

End Config.

(** ** HTTP messages *)

(** The arguments of [HttpClient.request]. *)
Record Request : Type := mkRequest {
  req_method : string;
  req_url : string;
  req_headers : option Headers;
  req_params : option Headers;
  req_json_data : option Dict;
  req_data : option Dict;
  req_files : option Dict
}.

(** [httpx.Request] as the cache reads it back from a response. *)
Record SentRequest : Type := mkSentRequest {
  sent_method : string;
  sent_url : string;
  sent_headers : option Headers;
  sent_params : option Headers;
  sent_body : option string
}.

(** [httpx.Response]: status, headers, body bytes and, for a response that
    came off the network, the request that produced it. *)
Record Response : Type := mkResponse {
  resp_status_code : Z;
  resp_headers : Headers;
  resp_content : string;
  resp_request : option SentRequest
}.

(** Exceptions, by the class an [except] clause of [request] tells apart;
    each carries its [str(e)]. *)
Inductive Exn : Type :=
| TimeoutException (msg : string)
| ConnectError (msg : string)
| NetworkError (msg : string)
| HTTPStatusError (msg : string) (response : Response)
| RequestError (msg : string)
| OtherException (msg : string).

Definition exn_str (e : Exn) : string :=
  match e with
  | TimeoutException m | ConnectError m | NetworkError m
  | HTTPStatusError m _ | RequestError m | OtherException m => m
  end.

(** ** Cache entries and the cache instance *)

(** [CacheEntry], with the fields that the tests pass to its constructor. *)
Record CacheEntry : Type := mkCacheEntry {
  url : string;
  method : string;
  headers : option Headers;
  params : option Headers;
  body : option string;
  status_code : Z;
  response_headers : Headers;
  response_body : string;
  cached_at : Z;
  expires_at : Z
}.

(** Modelled from the spec: [CacheEntry.is_expired] (talkie/utils/cache.py
    is missing): expired iff the current time has reached [expires_at]. *)
Definition is_expired (e : CacheEntry) (now : Z) : bool := (expires_at e <=? now)%Z.

(** [ResponseCache]: the attributes the tests read, [config] and [index];
    the index is a [dict] from cache key to entry, in insertion order, and
    holds the payload inline. *)
Record ResponseCache : Type := mkResponseCache {
  config : CacheConfig;
  index : list (string * CacheEntry)
}.

Definition with_index (rc : ResponseCache) (idx : list (string * CacheEntry)) : ResponseCache :=
  {| config := config rc; index := idx |}.

(** Modelled from the spec: the three accesses to the index of the store
    (talkie/utils/cache.py is missing), with the meaning of a Python
    [dict].  [index.get(key)]: *)
Fixpoint index_get (key : string) (idx : list (string * CacheEntry)) : option CacheEntry :=
  match idx with
  | [] => None
  | (k, e) :: rest => if String.eqb k key then Some e else index_get key rest
  end.

(** [index[key] = e]: an existing key keeps its place, a new one goes last. *)
Fixpoint index_set (key : string) (e : CacheEntry) (idx : list (string * CacheEntry))
    : list (string * CacheEntry) :=
  match idx with
  | [] => [(key, e)]
  | (k, v) :: rest =>
      if String.eqb k key then (key, e) :: rest else (k, v) :: index_set key e rest
  end.

(** [del index[key]] (no error when the key is absent). *)
Fixpoint index_del (key : string) (idx : list (string * CacheEntry))
    : list (string * CacheEntry) :=
  match idx with
  | [] => []
  | (k, v) :: rest =>
      if String.eqb k key then rest else (k, v) :: index_del key rest
  end.

Definition index_keys (idx : list (string * CacheEntry)) : list string := idx.*1.

(** Modelled from the spec: the entry that eviction takes first, "oldest
    [cached_at] first" (talkie/utils/cache.py is missing); among entries of
    equal age the earliest inserted. *)
Fixpoint oldest (idx : list (string * CacheEntry)) : option (string * CacheEntry) :=
  match idx with
  | [] => None
  | x :: rest =>
      match oldest rest with
      | None => Some x
      | Some y => if (cached_at x.2 <=? cached_at y.2)%Z then Some x else Some y
      end
  end.

(** ** Cacheability policy *)

Inductive GraphQLOperation : Type := Query | Mutation | Subscription.

(** The keyword of an operation type. *)
Definition keyword (op : GraphQLOperation) : string :=
  match op with
  | Query => "query"
  | Mutation => "mutation"
  | Subscription => "subscription"
  end.

(** Some operation keyword occurs in [t]. *)
Definition mentions_keyword (t : string) : bool :=
  contains (keyword Mutation) t || contains (keyword Subscription) t
  || contains (keyword Query) t.

(** Modelled from the spec: "search for the operation keyword preceding
    the opening brace" (section 9; talkie/utils/cache.py is missing).  The
    opening brace is the first brace of the raw body that has an
    operation keyword before it, and the result is the text before that
    brace; [seen] is the text read so far.  The brace that opens the JSON
    object has no keyword before it and is passed over. *)
Fixpoint operation_text (seen rest : string) : option string :=
  match rest with
  | EmptyString => None
  | String c rest' =>
      if Ascii.eqb c "{" && mentions_keyword seen then Some seen
      else operation_text (seen ++ String c EmptyString) rest'
  end.

(** Modelled from the spec: the heuristic that reads the operation type
    off the raw body, "presence of the literal keyword [query] as the
    operation type rather than [mutation] or [subscription]" (section
    4.3): among the keywords before the opening brace, [mutation] and
    [subscription] take precedence over [query], which is also the name of
    the JSON member that holds the document (talkie/utils/cache.py is
    missing). *)
Definition graphql_operation (body : option string) : option GraphQLOperation :=
  match body with
  | None => None
  | Some b =>
      match operation_text "" b with
      | None => None
      | Some t =>
          if contains (keyword Mutation) t then Some Mutation
          else if contains (keyword Subscription) t then Some Subscription
          else if contains (keyword Query) t then Some Query
          else None
      end
  end.

(** Modelled from the spec: "content-type indicates JSON"
    (talkie/utils/cache.py is missing): some header named Content-Type, in
    any letter case, has a value that mentions json. *)
Definition content_type_is_json (h : option Headers) : bool :=
  match h with
  | None => false
  | Some l =>
      existsb (fun kv => String.eqb (lower kv.1) "content-type"
                         && contains "json" (lower kv.2)) l
  end.

(** Modelled from the spec: the operations that are "never cacheable
    regardless of config". *)
Definition is_side_effecting (body : option string) : bool :=
  match graphql_operation body with
  | Some Mutation | Some Subscription => true
  | _ => false
  end.

(** Modelled from the spec: [ResponseCache._should_cache_request]
    (talkie/utils/cache.py is missing), rules 1 to 5 of section 4.3 in
    their order, with the hard rule that a mutation or a subscription is
    never admitted by the POST/PUT/PATCH rule. *)
Definition should_cache_request (cfg : CacheConfig) (method : string)
    (headers : option Headers) (body : option string) : bool :=
  let m := upper method in
  if negb (enabled cfg) then false
  else if String.eqb m "GET" && cache_get cfg then true
  else if String.eqb m "POST" && content_type_is_json headers
          && match graphql_operation body with Some Query => true | _ => false end
          && cache_graphql cfg then true
  else if (String.eqb m "POST" || String.eqb m "PUT" || String.eqb m "PATCH")
          && cache_post cfg && negb (is_side_effecting body) then true
  else false.

(** ** Response cache store *)

Section Store.

(** The cryptographic hash (SHA-256, hex encoded) of the key function. *)
Variable digest : string -> string.

(** The size in bytes of an entry as serialized on disk. *)
Variable serialized_size : CacheEntry -> N.

(** Modelled from the spec: "keys in a fixed sort order", by insertion
    into a list ordered on the key (talkie/utils/cache.py is missing). *)
Fixpoint insert_sorted (kv : string * string) (l : Headers) : Headers :=
  match l with
  | [] => [kv]
  | x :: rest =>
      if String.leb kv.1 x.1 then kv :: l else x :: insert_sorted kv rest
  end.

(** [sorted(d.items())]. *)
Definition sort_items (l : Headers) : Headers := foldr insert_sorted [] l.

Fixpoint join_items (l : Headers) : string :=
  match l with
  | [] => ""
  | (k, v) :: rest => k ++ "=" ++ v ++ ";" ++ join_items rest
  end.

Definition canonical_items (h : option Headers) : string :=
  match h with
  | None => ""
  | Some l => join_items (sort_items l)
  end.

(** Modelled from the spec: [ResponseCache._generate_cache_key]
    (talkie/utils/cache.py is missing): the hash of the upper-cased
    method, the URL, the headers and the params in key order and the
    body verbatim. *)
Definition generate_cache_key (method url : string)
    (headers params : option Headers) (body : option string) : string :=
  digest (upper method ++ "|" ++ url ++ "|" ++ canonical_items headers ++ "|"
          ++ canonical_items params ++ "|" ++ default "" body).

(** Modelled from the spec: the aggregate size of the index, the sum of
    the serialized sizes of its entries. *)
Definition total_size (idx : list (string * CacheEntry)) : N :=
  foldr (fun kv acc => (serialized_size kv.2 + acc)%N) 0%N idx.

(** Modelled from the spec: [len(index) > max_entries] or aggregate size
    [> max_size_mb], a megabyte being 1024 * 1024 bytes. *)
Definition exceeds (cfg : CacheConfig) (idx : list (string * CacheEntry)) : bool :=
  (max_entries cfg <? Z.of_nat (List.length idx))%Z
  || (max_size_mb cfg * 1048576 <? Z.of_N (total_size idx))%Z.

(** Both bounds of the configuration hold of an index. *)
Definition within_bounds (cfg : CacheConfig) (idx : list (string * CacheEntry)) : Prop :=
  (Z.of_nat (List.length idx) <= max_entries cfg)%Z
  /\ (Z.of_N (total_size idx) <= max_size_mb cfg * 1048576)%Z.

(** Modelled from the spec: one step of eviction removes the oldest entry. *)
Definition evict_oldest (idx : list (string * CacheEntry)) : list (string * CacheEntry) :=
  match oldest idx with
  | None => idx
  | Some (k, _) => index_del k idx
  end.

(** Modelled from the spec: "evicts the least-recently-cached entries
    until both bounds are satisfied" (talkie/utils/cache.py is missing): while a
    bound is exceeded, drop the oldest entry.  The fuel is the number of
    entries, which is the most the loop can remove. *)
Fixpoint evict_loop (fuel : nat) (cfg : CacheConfig) (idx : list (string * CacheEntry))
    : list (string * CacheEntry) :=
  match fuel with
  | O => idx
  | S fuel' =>
      if exceeds cfg idx then evict_loop fuel' cfg (evict_oldest idx) else idx
  end.

Definition enforce_limits (cfg : CacheConfig) (idx : list (string * CacheEntry))
    : list (string * CacheEntry) :=
  evict_loop (List.length idx) cfg idx.

(** Modelled from the spec: the response rebuilt from an entry, from its
    status code, headers and body. *)
Definition to_response (e : CacheEntry) : Response :=
  {| resp_status_code := status_code e;
     resp_headers := response_headers e;
     resp_content := response_body e;
     resp_request := None |}.

(** Modelled from the spec: [ResponseCache.get_cached_response]
    (talkie/utils/cache.py is missing).  A request the policy refuses
    misses without touching the index; an expired entry found is
    removed; a live entry is returned as a response. *)
Definition get_cached_response (now : Z) (method url : string)
    (headers params : option Headers) (body : option string)
    (rc : ResponseCache) : option Response * ResponseCache :=
  if negb (should_cache_request (config rc) method headers body) then (None, rc)
  else
    let key := generate_cache_key method url headers params body in
    match index_get key (index rc) with
    | None => (None, rc)
    | Some e =>
        if is_expired e now then (None, with_index rc (index_del key (index rc)))
        else (Some (to_response e), rc)
    end.

(** Modelled from the spec: eligibility for the store: the policy, a 2xx
    status and a body not above the ceiling of 1 MiB. *)
Definition storable (cfg : CacheConfig) (rq : SentRequest) (resp : Response) : bool :=
  should_cache_request cfg (sent_method rq) (sent_headers rq) (sent_body rq)
  && (200 <=? resp_status_code resp)%Z && (resp_status_code resp <? 300)%Z
  && (Z.of_nat (String.length (resp_content resp)) <=? 1024 * 1024)%Z.

(** Modelled from the spec: the entry built from a response, with
    [cached_at = now] and [expires_at = now + ttl]. *)
Definition entry_of (now ttl : Z) (rq : SentRequest) (resp : Response) : CacheEntry :=
  {| url := sent_url rq; method := sent_method rq;
     headers := sent_headers rq; params := sent_params rq; body := sent_body rq;
     status_code := resp_status_code resp;
     response_headers := resp_headers resp;
     response_body := resp_content resp;
     cached_at := now; expires_at := (now + ttl)%Z |}.

(** Modelled from the spec: the fingerprint re-derived from the request
    that produced the response. *)
Definition response_key (rq : SentRequest) : string :=
  generate_cache_key (sent_method rq) (sent_url rq) (sent_headers rq)
                     (sent_params rq) (sent_body rq).

(** Modelled from the spec: [ResponseCache.cache_response]
    (talkie/utils/cache.py is missing).  A response that is not eligible
    is skipped; otherwise an entry stamped with the current time is
    written under the key derived from the originating request, and the
    oldest entries are evicted until both bounds hold. *)
Definition cache_response (now : Z) (resp : Response) (ttl : option Z)
    (rc : ResponseCache) : ResponseCache :=
  match resp_request resp with
  | None => rc
  | Some rq =>
      if storable (config rc) rq resp then
        let e := entry_of now (default (default_ttl (config rc)) ttl) rq resp in
        with_index rc (enforce_limits (config rc) (index_set (response_key rq) e (index rc)))
      else rc
  end.

(** Modelled from the spec: [ResponseCache.clear_cache]
    (talkie/utils/cache.py is missing): the index is emptied. *)
Definition clear_cache (rc : ResponseCache) : ResponseCache := with_index rc [].

(** Modelled from the spec: [set_cache_config] (talkie/utils/cache.py is
    missing), replace-in-whole: the configuration is swapped and the
    stored entries are left alone. *)
Definition set_cache_config (new_config : CacheConfig) (rc : ResponseCache)
    : ResponseCache :=
  {| config := new_config; index := index rc |}.

(** A response as it comes off the network: it carries its request. *)
Definition from_network (rq : SentRequest) (resp : Response) : Response :=
  {| resp_status_code := resp_status_code resp; resp_headers := resp_headers resp;
     resp_content := resp_content resp; resp_request := Some rq |}.

(** A run of stores, each a clock reading, a request and its response,
    every one with the default TTL. *)
Definition store_all (items : list (Z * SentRequest * Response))
    (rc : ResponseCache) : ResponseCache :=
  foldl (fun rc it => cache_response it.1.1 (from_network it.1.2 it.2) None rc)
        rc items.

(** The index line that a store of [it] writes under configuration [cfg]. *)
Definition stored_entry (cfg : CacheConfig) (it : Z * SentRequest * Response)
    : string * CacheEntry :=
  (response_key it.1.2, entry_of it.1.1 (default_ttl cfg) it.1.2 it.2).

End Store.

(** ** The cache as the client sees it *)

(** The two methods [HttpClient.request] calls on its cache object.  Each
    takes the state of the cache and returns the new one together with its
    result or the exception it raised. *)
Record CacheOps (C : Type) : Type := mkCacheOps {
  ops_get_cached_response :
    string -> string -> option Headers -> option Headers -> option string ->
    C -> (Exn + option Response) * C;
  ops_cache_response : Response -> C -> (Exn + unit) * C
}.
Arguments ops_get_cached_response {C}.
Arguments ops_cache_response {C}.
Arguments mkCacheOps {C}.

(** The cache of the specification at clock reading [now].  Its two
    operations are total: storage failures are not part of this model. *)
Definition ResponseCache_ops (digest : string -> string)
    (serialized_size : CacheEntry -> N) (now : Z) : CacheOps ResponseCache :=
  {| ops_get_cached_response := fun m u h p b rc =>
       let r := get_cached_response digest now m u h p b rc in (inr r.1, r.2);
     ops_cache_response := fun resp rc =>
       (inr tt, cache_response digest serialized_size now resp None rc) |}.

(** ** HTTP client *)

(** The process-wide cache instance that [get_cache()] hands out. *)
Inductive CacheRef : Type := GlobalCache.
Definition get_cache : CacheRef := GlobalCache.

(** [HttpClient]: the attributes [__init__] sets (the certificate, which
    [request] does not read, is left out). *)
Record HttpClient : Type := mkHttpClient {
  timeout : Z;
  verify : bool;
  follow_redirects : bool;
  enable_cache : bool;
  max_connections : Z;
  max_keepalive_connections : Z;
  cache : option CacheRef
}.

(** [HttpClient.__init__] with [cert=None]. *)
Definition HttpClient_init (timeout : Z) (verify follow_redirects enable_cache : bool)
    (max_connections max_keepalive_connections : Z) : HttpClient :=
  {| timeout := timeout; verify := verify; follow_redirects := follow_redirects;
     enable_cache := enable_cache; max_connections := max_connections;
     max_keepalive_connections := max_keepalive_connections;
     cache := if enable_cache then Some get_cache else None |}.

(** What a call of [request] does to the outside, in order. *)
Inductive Event : Type :=
| CacheLookup (method url : string) (headers params : option Headers) (body : option string)
| NetworkCall (r : Request)
| CacheStore (resp : Response).

Definition is_network_call (ev : Event) : bool :=
  match ev with NetworkCall _ => true | _ => false end.
Definition is_cache_lookup (ev : Event) : bool :=
  match ev with CacheLookup _ _ _ _ _ => true | _ => false end.
Definition is_cache_store (ev : Event) : bool :=
  match ev with CacheStore _ => true | _ => false end.

Section Client.

(** The state of the cache object and its two methods. *)
Context {C : Type}.
Variable ops : CacheOps C.

(** [self.client.request(...)]: the response of the server, or the
    exception httpx raises. *)
Variable httpx_request : Request -> Exn + Response.

(** [response.raise_for_status()]: [Some msg] when it raises
    [HTTPStatusError] with message [msg]. *)
Variable status_error : Response -> option string.

(** [json.dumps(d, sort_keys=True)] and [str(d)]. *)
Variable json_dumps : Dict -> string.
Variable py_str : Dict -> string.

(** A computation of the client: it reads and writes the cache state,
    appends to the trace of events, and returns or raises. *)
Definition Run (A : Type) : Type := C * list Event -> (Exn + A) * (C * list Event).

Definition run_ret {A} (a : A) : Run A := fun w => (inr a, w).
Definition run_raise {A} (e : Exn) : Run A := fun w => (inl e, w).
Definition run_bind {A B} (m : Run A) (k : A -> Run B) : Run B :=
  fun w => match m w with
           | (inr a, w') => k a w'
           | (inl e, w') => (inl e, w')
           end.
(** [try: m except Exception as e: raise h(e)]. *)
Definition run_try {A} (m : Run A) (h : Exn -> Exn) : Run A :=
  fun w => match m w with
           | (inr a, w') => (inr a, w')
           | (inl e, w') => (inl (h e), w')
           end.

Notation "x <~ m ; k" := (run_bind m (fun x => k))
  (at level 100, m at next level, right associativity).

Definition call_get_cached_response (method url : string)
    (headers params : option Headers) (body : option string) : Run (option Response) :=
  fun w =>
    let r := ops_get_cached_response ops method url headers params body w.1 in
    (r.1, (r.2, (w.2 ++ [CacheLookup method url headers params body])%list)).

Definition call_cache_response (resp : Response) : Run unit :=
  fun w =>
    let r := ops_cache_response ops resp w.1 in
    (r.1, (r.2, (w.2 ++ [CacheStore resp])%list)).

Definition call_httpx (r : Request) : Run Response :=
  fun w => (httpx_request r, (w.1, (w.2 ++ [NetworkCall r])%list)).

Definition raise_for_status (resp : Response) : Run unit :=
  match status_error resp with
  | Some msg => run_raise (HTTPStatusError msg resp)
  | None => run_ret tt
  end.

(** [self.cache and self.enable_cache]. *)
Definition cache_active (self : HttpClient) : bool :=
  match cache self with Some _ => enable_cache self | None => false end.

(** Lines 141-146: the body that enters the cache key.  On the values of
    [PyValue], with their string keys, [json.dumps(json_data,
    sort_keys=True)] returns, and [json_dumps] is its result.  On a
    [json_data] outside [PyValue] it raises [TypeError] or [ValueError]
    at line 144, before the lookup and outside the [try] of line 160;
    that exit of [request] is not part of this model, whose requests
    carry JSON values. *)
Definition cache_body (json_data data : option Dict) : option string :=
  if dict_truthy json_data then Some (json_dumps (default [] json_data))
  else if dict_truthy data then Some (py_str (default [] data))
  else None.

(** The [except] clauses of lines 191-209, in their order. *)
Definition translate_error (self : HttpClient) (r : Request) (e : Exn) : Exn :=
  match e with
  | TimeoutException _ =>
      RequestError ("Request timeout after " ++ pretty (timeout self) ++ " seconds")
  | ConnectError m => RequestError ("Failed to connect to " ++ req_url r ++ ": " ++ m)
  | NetworkError m => RequestError ("Network error occurred: " ++ m)
  | _ => RequestError ("Unexpected error during request: " ++ exn_str e)
  end.

(** Lines 175-179: the gate in front of [cache_response]. *)
Definition store_gate (self : HttpClient) (r : Request) (response : Response) : bool :=
  (cache_active self
   && (200 <=? resp_status_code response)%Z && (resp_status_code response <? 300)%Z)
  && (String.eqb (upper (req_method r)) "GET"
      && (Z.of_nat (String.length (resp_content response)) <? 1024 * 1024)%Z).

(** Lines 160-209: the network call, the store and the status check. *)
Definition live_request (self : HttpClient) (r : Request) : Run Response :=
  run_try
    (response <~ call_httpx r;
     _ <~ (if store_gate self r response then call_cache_response response
           else run_ret tt);
     _ <~ raise_for_status response;
     run_ret response)
    (translate_error self r).

(** [HttpClient.request]. *)
Definition request (self : HttpClient) (r : Request) : Run Response :=
  cached_response <~
    (if cache_active self then
       call_get_cached_response (req_method r) (req_url r) (req_headers r)
         (req_params r) (cache_body (req_json_data r) (req_data r))
     else run_ret None);
  match cached_response with
  | Some resp => run_ret resp
  | None => live_request self r
  end.

(** What lines 182-209 make of a response that came back from the
    server: the status check and the [except] clauses. *)
Definition checked (self : HttpClient) (r : Request) (response : Response)
    : Exn + Response :=
  match status_error response with
  | Some msg => inl (translate_error self r (HTTPStatusError msg response))
  | None => inr response
  end.

(** One call of [request] on a cache in state [c]: the outcome, the
    state of the cache afterwards, and the events in their order. *)
Definition execute (self : HttpClient) (r : Request) (c : C)
    : (Exn + Response) * (C * list Event) :=
  request self r (c, []).

(** The lookup of line 148, on the arguments [request] passes. *)
Definition lookup (r : Request) (c : C) : (Exn + option Response) * C :=
  ops_get_cached_response ops (req_method r) (req_url r) (req_headers r)
    (req_params r) (cache_body (req_json_data r) (req_data r)) c.

Definition lookup_event (r : Request) : Event :=
  CacheLookup (req_method r) (req_url r) (req_headers r) (req_params r)
    (cache_body (req_json_data r) (req_data r)).

End Client.

(** The same client with caching switched off. *)
Definition without_cache (self : HttpClient) : HttpClient :=
  {| timeout := timeout self; verify := verify self;
     follow_redirects := follow_redirects self; enable_cache := false;
     max_connections := max_connections self;
     max_keepalive_connections := max_keepalive_connections self;
     cache := None |}.

(** The three conditions under which a response goes to the store: a 2xx
    status, a body under 1 MiB, and GET in any letter case. *)
Definition eligible_for_store (r : Request) (response : Response) : Prop :=
  (200 <= resp_status_code response < 300)%Z
  /\ (Z.of_nat (String.length (resp_content response)) < 1024 * 1024)%Z
  /\ upper (req_method r) = "GET".

(** ** The [cache] command *)

(** The options of [cache_management]; [None] is an option left out. *)
Record ConfigOptions : Type := mkConfigOptions {
  opt_ttl : option Z;
  opt_max_entries : option Z;
  opt_max_size : option Z;
  opt_enable : option bool;
  opt_cache_get : option bool;
  opt_cache_graphql : option bool
}.

Definition no_options : ConfigOptions := mkConfigOptions None None None None None None.

(** How the command ends: it returns, or [sys.exit(code)]. *)
Inductive Exit : Type := Finished | SysExit (code : Z).

(** [if opt is not None: data[key] = opt]. *)
Definition set_if {A} (key : string) (wrap : A -> ConfigValue) (opt : option A)
    (d : gmap string ConfigValue) : gmap string ConfigValue :=
  match opt with
  | Some v => <[key := wrap v]> d
  | None => d
  end.

(** Lines 836-849: the dump of the current configuration with the supplied
    options written over it. *)
Definition new_config_data (o : ConfigOptions) (current_config : CacheConfig)
    : gmap string ConfigValue :=
  set_if "cache_graphql" VBool (opt_cache_graphql o)
  (set_if "cache_get" VBool (opt_cache_get o)
  (set_if "enabled" VBool (opt_enable o)
  (set_if "max_size_mb" VInt (opt_max_size o)
  (set_if "max_entries" VInt (opt_max_entries o)
  (set_if "default_ttl" VInt (opt_ttl o)
  (model_dump current_config)))))).

Section Cli.

Variable platform_cache_dir : string.
Variable validate : CacheConfig -> bool.

(** [cache_management], as a function of the process-wide cache.  The
    [stats] action only prints; an exception of the [config] action (the
    constructor refusing the values) ends in [sys.exit(1)]. *)
Definition cache_management (action : string) (o : ConfigOptions)
    (cache : ResponseCache) : Exit * ResponseCache :=
  if String.eqb action "stats" then (Finished, cache)
  else if String.eqb action "clear" then (Finished, clear_cache cache)
  else if String.eqb action "config" then
    match CacheConfig_new platform_cache_dir validate
            (new_config_data o (config cache)) with
    | Some new_config => (Finished, set_cache_config new_config cache)
    | None => (SysExit 1, cache)
    end
  else (SysExit 1, cache).

End Cli.

(** The same request with another [json_data]. *)
Definition with_json_data (r : Request) (json_data : option Dict) : Request :=
  {| req_method := req_method r; req_url := req_url r; req_headers := req_headers r;
     req_params := req_params r; req_json_data := json_data; req_data := req_data r;
     req_files := req_files r |}.

(** ** Concrete inputs for the examples *)

(** Stand-ins for the library functions on the examples: a hash that
    returns its argument, a size that counts the body, a serializer that
    lists keys and string values, and a status check that raises from 400. *)
Definition plain_digest (s : string) : string := s.

Definition body_size (e : CacheEntry) : N := N.of_nat (String.length (response_body e)).

Definition plain_dumps (d : Dict) : string :=
  foldr (fun kv acc =>
           kv.1 ++ ": " ++ match kv.2 with PyStr v => v | _ => "" end ++ "; " ++ acc)
        "" d.

Definition error_from_400 (resp : Response) : option string :=
  if (resp_status_code resp <? 400)%Z then None else Some "HTTP error".

(** A server that answers every request with [resp]. *)
Definition serve (resp : Response) (_ : Request) : Exn + Response := inr resp.

Definition json_header : Headers := [("Content-Type", "application/json")].

(** The bodies of [test_should_cache_request]: a JSON object whose
    [query] member holds a query, respectively a mutation. *)
Definition dq : string := String (ascii_of_nat 34) EmptyString.

Definition query_body : string :=
  "{" ++ dq ++ "query" ++ dq ++ ": " ++ dq ++ "query { users { id } }" ++ dq ++ "}".

Definition mutation_body : string :=
  "{" ++ dq ++ "query" ++ dq ++ ": " ++ dq
  ++ "mutation { createUser(name: John) { id } }" ++ dq ++ "}".

Definition subscription_body : string :=
  "{" ++ dq ++ "query" ++ dq ++ ": " ++ dq
  ++ "subscription { userCreated { id } }" ++ dq ++ "}".

(** Following the words of the claims: a GraphQL document whose root
    operation has type [op].  It is the keyword of the operation, then
    [head], the name of the operation and its variable definitions, if
    any, then the selection set in braces. *)
Definition graphql_document (op : GraphQLOperation) (head selection : string) : string :=
  keyword op ++ head ++ "{" ++ selection ++ "}".

(** The JSON body that carries a document under its [query] member, as the
    bodies of [test_should_cache_request] do. *)
Definition graphql_payload (document : string) : string :=
  "{" ++ dq ++ "query" ++ dq ++ ": " ++ dq ++ document ++ dq ++ "}".


(** The default configuration with one field changed. *)
Definition disabled_config : CacheConfig :=
  mkCacheConfig false 300 1000 100 true false true "cache".
Definition two_entries_config : CacheConfig :=
  mkCacheConfig true 300 2 100 true false true "cache".

(** Two entries at most, and no room, respectively one megabyte, for them. *)
Definition no_room_config : CacheConfig :=
  mkCacheConfig true 300 2 0 true false true "cache".
Definition one_mb_config : CacheConfig :=
  mkCacheConfig true 300 2 1 true false true "cache".

(** Entries that take 600 000 bytes each on disk. *)
Definition heavy_size (_ : CacheEntry) : N := 600000%N.

(** The three stores of [test_max_entries_cleanup]. *)
Definition user_sent (i : string) : SentRequest :=
  mkSentRequest "GET" ("https://api.example.com/users/" ++ i) None None None.
Definition user_response (i : string) : Response :=
  mkResponse 200 json_header ("{user: " ++ i ++ "}") None.
Definition three_stores : list (Z * SentRequest * Response) :=
  [ (100%Z, user_sent "0", user_response "0");
    (101%Z, user_sent "1", user_response "1");
    (102%Z, user_sent "2", user_response "2") ].

(** [HttpClient()] and [HttpClient(enable_cache=False)]. *)
Definition caching_client : HttpClient := HttpClient_init 30 true true true 100 20.
Definition plain_client : HttpClient := HttpClient_init 30 true true false 100 20.

Definition get_users : Request :=
  mkRequest "GET" "https://api.example.com/users" None None None None None.

(** A POST that carries the GraphQL query [query { users { id } }]. *)
Definition graphql_query_post : Request :=
  mkRequest "POST" "https://api.example.com/graphql" (Some json_header) None
    (Some [("query", PyStr "query { users { id } }")]) None None.

Definition users_sent : SentRequest :=
  mkSentRequest "GET" "https://api.example.com/users" None None None.

(** The server's answer to [get_users]. *)
Definition users_response : Response :=
  mkResponse 200 json_header "{users: []}" (Some users_sent).

Definition empty_cache : ResponseCache :=
  mkResponseCache (default_config "cache") [].

(** The cache after [users_response] was stored at time 100. *)
Definition warm_cache : ResponseCache :=
  cache_response plain_digest body_size 100 users_response None empty_cache.

(** A cache object whose lookup raises, and one whose store raises. *)
Definition unreadable_cache : CacheOps unit :=
  {| ops_get_cached_response := fun _ _ _ _ _ c =>
       (inl (OtherException "cache index unreadable"), c);
     ops_cache_response := fun _ c => (inr tt, c) |}.

Definition unwritable_cache : CacheOps unit :=
  {| ops_get_cached_response := fun _ _ _ _ _ c => (inr None, c);
     ops_cache_response := fun _ c => (inl (OtherException "disk full"), c) |}.

(** A single setting that a [cache config] invocation may be asked to make. *)
Inductive Setting : Type :=
| SetTtl (z : Z)
| SetMaxEntries (z : Z)
| SetMaxSize (z : Z)
| SetEnabled (b : bool)
| SetCacheGet (b : bool)
| SetCacheGraphql (b : bool).

(** The invocation that passes the one option of a setting. *)
Definition single_option (s : Setting) : ConfigOptions :=
  match s with
  | SetTtl z => mkConfigOptions (Some z) None None None None None
  | SetMaxEntries z => mkConfigOptions None (Some z) None None None None
  | SetMaxSize z => mkConfigOptions None None (Some z) None None None
  | SetEnabled b => mkConfigOptions None None None (Some b) None None
  | SetCacheGet b => mkConfigOptions None None None None (Some b) None
  | SetCacheGraphql b => mkConfigOptions None None None None None (Some b)
  end.

(** The configuration that differs from [c] in the field of the setting only. *)
Definition apply_setting (s : Setting) (c : CacheConfig) : CacheConfig :=
  match s with
  | SetTtl z =>
      mkCacheConfig (enabled c) z (max_entries c) (max_size_mb c)
        (cache_get c) (cache_post c) (cache_graphql c) (cache_dir c)
  | SetMaxEntries z =>
      mkCacheConfig (enabled c) (default_ttl c) z (max_size_mb c)
        (cache_get c) (cache_post c) (cache_graphql c) (cache_dir c)
  | SetMaxSize z =>
      mkCacheConfig (enabled c) (default_ttl c) (max_entries c) z
        (cache_get c) (cache_post c) (cache_graphql c) (cache_dir c)
  | SetEnabled b =>
      mkCacheConfig b (default_ttl c) (max_entries c) (max_size_mb c)
        (cache_get c) (cache_post c) (cache_graphql c) (cache_dir c)
  | SetCacheGet b =>
      mkCacheConfig (enabled c) (default_ttl c) (max_entries c) (max_size_mb c)
        b (cache_post c) (cache_graphql c) (cache_dir c)
  | SetCacheGraphql b =>
      mkCacheConfig (enabled c) (default_ttl c) (max_entries c) (max_size_mb c)
        (cache_get c) (cache_post c) b (cache_dir c)
  end.

(** The per-method flags of [CacheConfig]. *)
Inductive MethodFlag : Type := FlagGet | FlagPost | FlagGraphql.

Definition flag_value (f : MethodFlag) (c : CacheConfig) : bool :=
  match f with
  | FlagGet => cache_get c
  | FlagPost => cache_post c
  | FlagGraphql => cache_graphql c
  end.

(** The validation of section 7 of the specification, used to run the
    command on examples: no negative number, no zero [max_entries]. *)
Definition positive_limits (c : CacheConfig) : bool :=
  (0 <=? default_ttl c)%Z && (0 <? max_entries c)%Z && (0 <=? max_size_mb c)%Z.

(** The options written over a configuration, field by field: what
    [new_config_data] holds under each key. *)
Definition overlay (o : ConfigOptions) (c : CacheConfig) : CacheConfig :=
  {| enabled := default (enabled c) (opt_enable o);
     default_ttl := default (default_ttl c) (opt_ttl o);
     max_entries := default (max_entries c) (opt_max_entries o);
     max_size_mb := default (max_size_mb c) (opt_max_size o);
     cache_get := default (cache_get c) (opt_cache_get o);
     cache_post := cache_post c;
     cache_graphql := default (cache_graphql c) (opt_cache_graphql o);
     cache_dir := cache_dir c |}.

(* ===================================================================== *)
(** * Further code of the client and of the command line *)
(* ===================================================================== *)

(** Built-in exceptions raised by the code below. *)
Inductive PyError : Type := ValueError (msg : string).

(** Truthiness of an [Optional[str]]: [None] and the empty string are falsy. *)
Definition str_truthy (s : option string) : bool :=
  match s with
  | None | Some EmptyString => false
  | Some (String _ _) => true
  end.

(** ** [range], slices and [_batch_requests] (src/talkie/cli/main.py) *)

(** The values of [range(start, stop, step)] for a positive step, at most
    [fuel] of them. *)
Fixpoint range_up (fuel : nat) (start stop step : Z) : list Z :=
  match fuel with
  | O => []
  | S fuel' =>
      if (start <? stop)%Z then start :: range_up fuel' (start + step) stop step
      else []
  end.

(** The same for a negative step: the values run down to [stop]. *)
Fixpoint range_down (fuel : nat) (start stop step : Z) : list Z :=
  match fuel with
  | O => []
  | S fuel' =>
      if (stop <? start)%Z then start :: range_down fuel' (start + step) stop step
      else []
  end.

(** [range(start, stop, step)].  The distance between [start] and [stop]
    is fuel enough, since every step moves by one at least. *)
Definition py_range (start stop step : Z) : PyError + list Z :=
  if (step =? 0)%Z then inl (ValueError "range() arg 3 must not be zero")
  else if (0 <? step)%Z then inr (range_up (Z.to_nat (stop - start)) start stop step)
  else inr (range_down (Z.to_nat (start - stop)) start stop step).

(** [l[lo:hi]] for bounds that are not negative. *)
Definition py_slice {A} (l : list A) (lo hi : Z) : list A :=
  take (Z.to_nat (hi - lo)) (drop (Z.to_nat lo) l).

(** [_batch_requests]: the batches the generator yields, or the exception
    that [range] raises when the loop starts. *)
Definition _batch_requests {A} (requests : list A) (batch_size : Z)
    : PyError + list (list A) :=
  match py_range 0 (Z.of_nat (List.length requests)) batch_size with
  | inl e => inl e
  | inr starts => inr ((fun i => py_slice requests i (i + batch_size)) <$> starts)
  end.

(** ** The request list of [parallel_requests] (src/talkie/cli/main.py) *)

(** [s.startswith(prefix)]. *)
Definition startswith (prefix s : string) : bool := String.prefix prefix s.

(** [s.lstrip(c)] for a single character [c]. *)
Fixpoint lstrip (c : ascii) (s : string) : string :=
  match s with
  | EmptyString => EmptyString
  | String a rest => if Ascii.eqb a c then lstrip c rest else s
  end.

(** [s.rstrip(c)] for a single character [c]. *)
Fixpoint rstrip (c : ascii) (s : string) : string :=
  match s with
  | EmptyString => EmptyString
  | String a rest =>
      match rstrip c rest with
      | EmptyString => if Ascii.eqb a c then EmptyString else String a EmptyString
      | rest' => String a rest'
      end
  end.

(** One entry of the list [requests]. *)
Record ParallelRequest : Type := mkParallelRequest {
  pr_method : string;
  pr_url : string;
  pr_request_id : string
}.

(** [url.startswith(("http://", "https://"))]. *)
Definition is_absolute (url : string) : bool :=
  startswith "http://" url || startswith "https://" url.

(** Lines 409-412: the URL of a request, joined to the base URL unless it
    is absolute or there is no base. *)
Definition full_url (base_url : option string) (url : string) : string :=
  if str_truthy base_url && negb (is_absolute url)
  then rstrip "/" (default "" base_url) ++ "/" ++ lstrip "/" url
  else url.

(** Lines 388-423 of [parallel_requests]: the requests to run, or the
    status of [sys.exit].  [exists_] is [os.path.exists]. *)
Definition prepare_requests (exists_ : string -> bool)
    (file method base_url : option string) (urls : list string)
    : Z + list ParallelRequest :=
  if str_truthy file then
    if negb (exists_ (default "" file)) then inl 1%Z else inr []
  else
    match urls with
    | _ :: _ =>
        if negb (str_truthy method) then inl 1%Z
        else inr (imap (fun i url =>
                          {| pr_method := upper (default "" method);
                             pr_url := full_url base_url url;
                             pr_request_id := "req_" ++ pretty (i + 1)%nat |})
                       urls)
    | [] => inl 1%Z
    end.

(** ** The summary of [parallel_requests] *)

Section Summary.

(** The error slot of a result and its truth value. *)
Context {Error : Type}.
Variable error_truthy : Error -> bool.

(** One result of [execute_batch]: request id, response, error. *)
Definition BatchResult : Type := (string * option Response * option Error)%type.

Definition has_error (r : BatchResult) : bool :=
  match r.2 with Some e => error_truthy e | None => false end.

Definition has_response (r : BatchResult) : bool :=
  match r.1.2 with Some _ => true | None => false end.

(** Lines 499-501: [total], [successful], [failed]. *)
Definition summary_total (results : list BatchResult) : nat := List.length results.
Definition summary_successful (results : list BatchResult) : nat :=
  List.length (filter (fun r => has_response r && negb (has_error r) = true) results).
Definition summary_failed (results : list BatchResult) : nat :=
  List.length (filter (fun r => has_error r = true) results).

(** Lines 515-519: the dictionary [status_counts]. *)
Definition status_counts (results : list BatchResult) : gmap Z nat :=
  foldl (fun counts r =>
           match r.1.2 with
           | Some resp =>
               <[resp_status_code resp := (default 0 (counts !! resp_status_code resp) + 1)%nat]>
                 counts
           | None => counts
           end)
        ∅ results.

(** The results that carry a response of status [s]. *)
Definition with_status (s : Z) (results : list BatchResult) : list BatchResult :=
  filter (fun r => (resp_status_code <$> r.1.2) = Some s) results.

End Summary.

(** ** [HttpClient.send], [get] and [post] (src/talkie/core/client.py) *)

(** The dictionary that [send] takes, key by key; [None] is a key that is
    not there. *)
Record SendRequest : Type := mkSendRequest {
  sr_method : option string;
  sr_url : option string;
  sr_headers : option Headers;
  sr_params : option Headers;
  sr_json : option Dict;
  sr_data : option Dict;
  sr_files : option Dict;
  sr_timeout : option Z
}.

(** The client object as [send] changes it: [self] and the timeout of
    [self.client]. *)
Record ClientObject : Type := mkClientObject {
  co_self : HttpClient;
  co_client_timeout : Z
}.

(** [self.timeout = t]. *)
Definition with_timeout (self : HttpClient) (t : Z) : HttpClient :=
  {| timeout := t; verify := verify self;
     follow_redirects := follow_redirects self; enable_cache := enable_cache self;
     max_connections := max_connections self;
     max_keepalive_connections := max_keepalive_connections self;
     cache := cache self |}.

(** [self.timeout = t; self.client.timeout = httpx.Timeout(t)]. *)
Definition set_timeouts (obj : ClientObject) (t : Z) : ClientObject :=
  {| co_self := with_timeout (co_self obj) t; co_client_timeout := t |}.

(** The arguments [send] passes on to [request]. *)
Definition request_of (method url : string) (rq : SendRequest) : Request :=
  mkRequest method url (sr_headers rq) (sr_params rq) (sr_json rq) (sr_data rq)
    (sr_files rq).

Section Send.

Context {C : Type}.
Variable ops : CacheOps C.
Variable httpx_request : Request -> Exn + Response.
Variable status_error : Response -> option string.
Variable json_dumps : Dict -> string.
Variable py_str : Dict -> string.

(** [HttpClient.send]: the [ValueError] of a missing key or the outcome of
    [request], then the client object afterwards, then the cache state and
    the events.  The [finally] clause runs on a return and on an exception
    alike. *)
Definition send (obj : ClientObject) (rq : SendRequest) (w : C * list Event)
    : (PyError + (Exn + Response)) * ClientObject * (C * list Event) :=
  match sr_method rq with
  | None => (inl (ValueError "Request is missing required key 'method'"), obj, w)
  | Some method =>
      match sr_url rq with
      | None => (inl (ValueError "Request is missing required key 'url'"), obj, w)
      | Some url =>
          let timeout_ := default (timeout (co_self obj)) (sr_timeout rq) in
          let original_timeout := timeout (co_self obj) in
          let obj1 :=
            if negb (timeout_ =? timeout (co_self obj))%Z
            then set_timeouts obj timeout_ else obj in
          let out :=
            request ops httpx_request status_error json_dumps py_str
              (co_self obj1) (request_of method url rq) w in
          let obj2 :=
            if negb (timeout_ =? original_timeout)%Z
            then set_timeouts obj1 original_timeout else obj1 in
          (inr out.1, obj2, out.2)
      end
  end.

(** [HttpClient.get] and [HttpClient.post]. *)
Definition get (self : HttpClient) (url : string) (headers params : option Headers)
    : Run (C:=C) Response :=
  request ops httpx_request status_error json_dumps py_str self
    (mkRequest "GET" url headers params None None None).

Definition post (self : HttpClient) (url : string) (headers params : option Headers)
    (json_data data files : option Dict) : Run (C:=C) Response :=
  request ops httpx_request status_error json_dumps py_str self
    (mkRequest "POST" url headers params json_data data files).

End Send.

(** ** Client certificates (src/talkie/core/client.py, src/talkie/cli/main.py) *)

(** The [cert] argument of [HttpClient]: a path, or a tuple of paths of
    any length. *)
Inductive CertArg : Type :=
| CertPath (path : string)
| CertTuple (items : list string).

(** Truthiness of an [Optional] certificate argument: [None], the empty
    string and the empty tuple are falsy. *)
Definition cert_truthy (cert : option CertArg) : bool :=
  match cert with
  | None => false
  | Some (CertPath p) => str_truthy (Some p)
  | Some (CertTuple items) => match items with [] => false | _ => true end
  end.

Definition cert_shape_error : PyError :=
  ValueError "cert must be a string (path to .pem file) or tuple (cert_file, key_file)".

Section CertFiles.

(** [os.path.isfile] and [os.access(_, os.R_OK)] on the file system of
    the run. *)
Variable isfile : string -> bool.
Variable readable : string -> bool.

(** [HttpClient._validate_cert_files]. *)
Definition _validate_cert_files (cert : CertArg) : PyError + unit :=
  match cert with
  | CertPath cert =>
      if negb (isfile cert) then inl (ValueError ("Certificate file not found: " ++ cert))
      else if negb (readable cert)
      then inl (ValueError ("Certificate file not readable: " ++ cert))
      else inr tt
  | CertTuple [cert_file; key_file] =>
      if negb (isfile cert_file)
      then inl (ValueError ("Certificate file not found: " ++ cert_file))
      else if negb (isfile key_file)
      then inl (ValueError ("Key file not found: " ++ key_file))
      else if negb (readable cert_file)
      then inl (ValueError ("Certificate file not readable: " ++ cert_file))
      else if negb (readable key_file)
      then inl (ValueError ("Key file not readable: " ++ key_file))
      else inr tt
  | CertTuple _ => inl cert_shape_error
  end.

(** Lines 60-61 of [HttpClient.__init__]: [if cert: self._validate_cert_files(cert)]. *)
Definition init_cert (cert : option CertArg) : PyError + unit :=
  match cert with
  | Some c => if cert_truthy cert then _validate_cert_files c else inr tt
  | None => inr tt
  end.

End CertFiles.

(** [s.split(sep, 1)] for a one-character separator. *)
Fixpoint split1 (sep : ascii) (s : string) : list string :=
  match s with
  | EmptyString => [EmptyString]
  | String a rest =>
      if Ascii.eqb a sep then [EmptyString; rest]
      else match split1 sep rest with
           | x :: tl => String a x :: tl
           | [] => [String a EmptyString]
           end
  end.

(** What the command line makes of [--cert] (main.py, lines 1428-1437, and
    the same at 668-675): [inl tt] stands for the [IndexError] of
    [cert_parts[1]]. *)
Definition cert_config (cert : option string) : unit + option CertArg :=
  match cert with
  | Some c =>
      if str_truthy cert then
        if contains ":" c then
          let cert_parts := split1 ":" c in
          match cert_parts !! 0%nat, cert_parts !! 1%nat with
          | Some cert_file, Some key_file => inr (Some (CertTuple [cert_file; key_file]))
          | _, _ => inl tt
          end
        else inr (Some (CertPath c))
      else inr None
  | None => inr None
  end.

(** ** [WebSocketClient] (src/talkie/core/websocket_client.py) *)

Module WebSocketClient.

(** [WebSocketMessage] with the data of the stand-in message. *)
Record WebSocketMessage : Type := mkWebSocketMessage {
  type : string;
  data : string;
  id : option string
}.

Section Handlers.

(** The callables registered as handlers. *)
Context {Handler : Type}.

(** The attributes of the client; [connection] stays [None] throughout. *)
Record t : Type := mk {
  uri : string;
  is_connected : bool;
  _handlers : gmap string (list Handler)
}.

Definition init (uri : string) : t :=
  {| uri := uri; is_connected := false; _handlers := ∅ |}.

Definition connect (self : t) : bool * t :=
  (true, {| uri := uri self; is_connected := true; _handlers := _handlers self |}).

Definition disconnect (self : t) : t :=
  {| uri := uri self; is_connected := false; _handlers := _handlers self |}.

Definition send (self : t) (message : string) : bool :=
  if negb (is_connected self) then false else true.

Definition receive (self : t) : option WebSocketMessage :=
  if negb (is_connected self) then None
  else Some (mkWebSocketMessage "text" "mock message" None).

(** [on]: the list of the event is created when missing, then appended to. *)
Definition on (self : t) (event : string) (handler : Handler) : t :=
  let handlers :=
    match _handlers self !! event with
    | None => <[event := []]> (_handlers self)
    | Some _ => _handlers self
    end in
  {| uri := uri self; is_connected := is_connected self;
     _handlers := <[event := (default [] (handlers !! event) ++ [handler])%list]> handlers |}.

(** A call on the client. *)
Inductive Call : Type :=
| Connect
| Disconnect
| Send (message : string)
| Receive
| On (event : string) (handler : Handler).

Definition call (self : t) (c : Call) : t :=
  match c with
  | Connect => (connect self).2
  | Disconnect => disconnect self
  | Send _ | Receive => self
  | On event handler => on self event handler
  end.

(** The client after the calls, in their order. *)
Definition calls (self : t) (cs : list Call) : t := foldl call self cs.

(** The handlers that the calls register for [event], in their order. *)
Definition registered (event : string) (cs : list Call) : list Handler :=
  omap (fun c => match c with
                 | On event' handler =>
                     if String.eqb event' event then Some handler else None
                 | _ => None
                 end) cs.

(** The calls that set or clear [is_connected]. *)
Definition switches (c : Call) : bool :=
  match c with Connect | Disconnect => true | _ => false end.

End Handlers.

Arguments t : clear implicits.
Arguments Call : clear implicits.

End WebSocketClient.

(** ** The query and the variables of [graphql_request] (src/talkie/cli/main.py) *)

(** Lines 586-588: the form and the JSON variables in one dictionary, a
    JSON variable over a form variable of the same name; [None] when
    there is none of either. *)
Definition all_variables (form_vars json_vars : gmap string PyValue)
    : option (gmap string PyValue) :=
  if bool_decide (form_vars <> ∅) || bool_decide (json_vars <> ∅)
  then Some (json_vars ∪ form_vars)
  else None.

(** What [open(query_file).read()] comes to. *)
Inductive FileRead : Type :=
| FileContent (text : string)
| FileNotFoundError
| ReadFailure (msg : string).

Section QueryText.

(** The file system, and the text of the introspection query of lines
    610-664. *)
Variable read_file : string -> FileRead.
Variable introspection_query : string.

(** Lines 595-667: the text of the query, or the code of [sys.exit]. *)
Definition query_text (query query_file : option string) (introspect : bool)
    : Z + string :=
  if str_truthy query then inr (default "" query)
  else if str_truthy query_file then
    match read_file (default "" query_file) with
    | FileContent text => inr text
    | FileNotFoundError => inl 1%Z
    | ReadFailure _ => inl 1%Z
    end
  else if introspect then inr introspection_query
  else inl 1%Z.

End QueryText.

(** ** Further inputs for the examples *)

(** [HttpClient(enable_cache=False)] with the timeout of its httpx client. *)
Definition plain_object : ClientObject := mkClientObject plain_client 30.

(** [{"method": "GET", "url": ..., "timeout": 5}]. *)
Definition get_users_dict : SendRequest :=
  mkSendRequest (Some "GET") (Some "https://api.example.com/users")
    None None None None None (Some 5%Z).

(** A server that does not answer in time. *)
Definition timing_out (_ : Request) : Exn + Response := inl (TimeoutException "timed out").

(** A file system with a readable [client.pem] and [client.key]. *)
Definition two_files (path : string) : bool :=
  String.eqb path "client.pem" || String.eqb path "client.key".

(** A directory that holds [users.graphql]. *)
Definition one_query_file (path : string) : FileRead :=
  if String.eqb path "users.graphql" then FileContent "query { users { id } }"
  else FileNotFoundError.
(* ===================================================================== *)
(** * Properties *)
(* ===================================================================== *)

(** ** The [cache config] action *)

Section CliFacts.

Variable platform_cache_dir : string.
Variable validate : CacheConfig -> bool.

Lemma set_if_lookup_ne {A} key key' (wrap : A -> ConfigValue) opt
    (d : gmap string ConfigValue) :
  key <> key' -> set_if key wrap opt d !! key' = d !! key'.
Proof.
  intros Hne. destruct opt as [v|]; simpl; [|done].
  by rewrite lookup_insert_ne.
Qed.

Lemma set_if_lookup_eq {A} key (wrap : A -> ConfigValue) opt
    (d : gmap string ConfigValue) old :
  d !! key = Some (wrap old) ->
  set_if key wrap opt d !! key = Some (wrap (default old opt)).
Proof.
  intros Hd. destruct opt as [v|]; simpl; [|done].
  by rewrite lookup_insert_eq.
Qed.

(** Every key of the dump survives the updates; the six keys that have
    an option hold the option when it was given. *)
Lemma new_config_data_lookup o c :
  let d := new_config_data o c in
  d !! "enabled" = Some (VBool (default (enabled c) (opt_enable o)))
  /\ d !! "default_ttl" = Some (VInt (default (default_ttl c) (opt_ttl o)))
  /\ d !! "max_entries" = Some (VInt (default (max_entries c) (opt_max_entries o)))
  /\ d !! "max_size_mb" = Some (VInt (default (max_size_mb c) (opt_max_size o)))
  /\ d !! "cache_get" = Some (VBool (default (cache_get c) (opt_cache_get o)))
  /\ d !! "cache_post" = Some (VBool (cache_post c))
  /\ d !! "cache_graphql" = Some (VBool (default (cache_graphql c) (opt_cache_graphql o)))
  /\ d !! "cache_dir" = Some (VStr (cache_dir c)).
Proof.
  cbv zeta. unfold new_config_data.
  repeat split;
    repeat first [ rewrite set_if_lookup_ne by discriminate
                 | apply set_if_lookup_eq ];
    unfold model_dump; by simplify_map_eq.
Qed.

Lemma CacheConfig_new_data o c :
  CacheConfig_new platform_cache_dir validate (new_config_data o c)
  = if validate (overlay o c) then Some (overlay o c) else None.
Proof.
  destruct (new_config_data_lookup o c)
    as (He & Ht & Hn & Hm & Hg & Hp & Hq & Hd).
  unfold CacheConfig_new, field.
  rewrite He, Ht, Hn, Hm, Hg, Hp, Hq, Hd. reflexivity.
Qed.

Lemma cache_management_config o cache :
  cache_management platform_cache_dir validate "config" o cache
  = if validate (overlay o (config cache))
    then (Finished, set_cache_config (overlay o (config cache)) cache)
    else (SysExit 1, cache).
Proof.
  unfold cache_management. simpl. rewrite CacheConfig_new_data.
  by destruct (validate _).
Qed.

(** C8.  A run of [cache config] installs a configuration as soon as the
    constructor accepts the values, and otherwise ends in [sys.exit(1)]
    with the cache as it was.  Of the configuration it installs, each
    field that has an option holds the supplied value, or the previous
    value when the option was left out; [cache_post] and [cache_dir] hold
    their previous values; the stored entries are untouched. *)
Theorem config_action_replaces_whole o cache :
  (validate (overlay o (config cache)) = true ->
   (cache_management platform_cache_dir validate "config" o cache).1 = Finished)
  /\
  match cache_management platform_cache_dir validate "config" o cache with
  | (Finished, cache') =>
      let c := config cache in
      let c' := config cache' in
      validate c' = true
      /\ index cache' = index cache
      /\ default_ttl c' = default (default_ttl c) (opt_ttl o)
      /\ max_entries c' = default (max_entries c) (opt_max_entries o)
      /\ max_size_mb c' = default (max_size_mb c) (opt_max_size o)
      /\ enabled c' = default (enabled c) (opt_enable o)
      /\ cache_get c' = default (cache_get c) (opt_cache_get o)
      /\ cache_graphql c' = default (cache_graphql c) (opt_cache_graphql o)
      /\ cache_post c' = cache_post c
      /\ cache_dir c' = cache_dir c
  | (SysExit code, cache') => code = 1%Z /\ cache' = cache
  end.
Proof.
  rewrite cache_management_config.
  destruct (validate (overlay o (config cache))) eqn:Hv; simpl; [|done].
  by repeat split.
Qed.


Lemma overlay_single s c : overlay (single_option s) c = apply_setting s c.
Proof. by destruct s, c. Qed.

(** C9 (amended).  For each of ttl, max-entries, max-size,
    enable/disable, cache-get and cache-graphql, the invocation that
    passes that one option installs the configuration that differs from
    the current one in that field only, provided the constructor accepts
    it; and no invocation whatsoever changes [cache_post]. *)
Theorem config_action_settings s cache
    (Hvalid : validate (apply_setting s (config cache)) = true) :
  cache_management platform_cache_dir validate "config" (single_option s) cache
  = (Finished, set_cache_config (apply_setting s (config cache)) cache)
  /\ forall o cache',
      cache_management platform_cache_dir validate "config" o cache
      = (Finished, cache') ->
      cache_post (config cache') = cache_post (config cache).
Proof.
  split.
  - rewrite cache_management_config, overlay_single. by rewrite Hvalid.
  - intros o cache'. rewrite cache_management_config.
    destruct (validate (overlay o (config cache))); [|done]. by intros [= <-].
Qed.

End CliFacts.

(** [talkie cache config --ttl 5 --no-cache-get] on the default configuration. *)
Example config_action_run :
  cache_management "cache" positive_limits "config"
    (mkConfigOptions (Some 5%Z) None None None (Some false) None)
    (mkResponseCache (default_config "cache") [])
  = (Finished,
     mkResponseCache (mkCacheConfig true 5 1000 100 false false true "cache") []).
Proof. by vm_compute. Qed.

(** [talkie cache config --max-entries 0] is refused and changes nothing. *)
Example config_action_refused :
  cache_management "cache" positive_limits "config"
    (mkConfigOptions None (Some 0%Z) None None None None)
    (mkResponseCache (default_config "cache") [])
  = (SysExit 1, mkResponseCache (default_config "cache") []).
Proof. by vm_compute. Qed.

Lemma config_action_replaces_whole_witness :
  (cache_management "cache" positive_limits "config"
     (mkConfigOptions (Some 5%Z) None None None (Some false) None)
     (mkResponseCache (default_config "cache") [])).1 = Finished.
Proof.
  apply (proj1 (config_action_replaces_whole "cache" positive_limits
                  (mkConfigOptions (Some 5%Z) None None None (Some false) None)
                  (mkResponseCache (default_config "cache") []))).
  reflexivity.
Defined.

Lemma config_action_settings_witness :
  cache_management "cache" positive_limits "config"
    (single_option (SetCacheGraphql false))
    (mkResponseCache (default_config "cache") [])
  = (Finished,
     set_cache_config (apply_setting (SetCacheGraphql false) (default_config "cache"))
       (mkResponseCache (default_config "cache") [])).
Proof.
  apply (config_action_settings "cache" positive_limits (SetCacheGraphql false)
           (mkResponseCache (default_config "cache") [])).
  reflexivity.
Defined.

(** C9 as stated fails: whatever the validation, the directory, the
    options and the state of the cache, a run of [cache config] leaves
    [cache_post] as it was, so C9 does not hold of that flag. *)
Lemma config_action_cannot_set_cache_post :
  ~ (forall f : MethodFlag,
       exists dir validate o cache cache',
         cache_management dir validate "config" o cache = (Finished, cache')
         /\ flag_value f (config cache') <> flag_value f (config cache)).
Proof.
  intros H. destruct (H FlagPost) as (dir & validate & o & cache & cache' & Hrun & Hne).
  apply Hne. simpl. revert Hrun. rewrite cache_management_config.
  destruct (validate _); [|done]. by intros [= <-].
Qed.

(** ** Letter case of the method *)

Lemma upper_ascii_G c : upper_ascii c = "G"%char <-> lower_ascii c = "g"%char.
Proof. destruct c as [[] [] [] [] [] [] [] []]; vm_compute; split; congruence. Qed.

Lemma upper_ascii_E c : upper_ascii c = "E"%char <-> lower_ascii c = "e"%char.
Proof. destruct c as [[] [] [] [] [] [] [] []]; vm_compute; split; congruence. Qed.

Lemma upper_ascii_T c : upper_ascii c = "T"%char <-> lower_ascii c = "t"%char.
Proof. destruct c as [[] [] [] [] [] [] [] []]; vm_compute; split; congruence. Qed.

(** [method.upper() == "GET"] holds exactly of the spellings of GET in any
    letter case. *)
Lemma upper_GET_any_case m : upper m = "GET" <-> lower m = "get".
Proof.
  destruct m as [|c1 [|c2 [|c3 [|c4 m]]]]; simpl; try (split; discriminate).
  split; intros [= H1 H2 H3]; f_equal; [| f_equal; [| f_equal] | | f_equal; [| f_equal]];
    first [ by apply upper_ascii_G | by apply upper_ascii_E | by apply upper_ascii_T ].
Qed.

Example upper_GET_mixed : upper "gEt" = "GET".
Proof. reflexivity. Qed.

(** ** The request pipeline *)

Section ClientFacts.

Context {C : Type}.
Variable ops : CacheOps C.
Variable httpx_request : Request -> Exn + Response.
Variable status_error : Response -> option string.
Variable json_dumps : Dict -> string.
Variable py_str : Dict -> string.

Local Abbreviation live := (live_request ops httpx_request status_error).
Local Abbreviation exec := (execute ops httpx_request status_error json_dumps py_str).
Local Abbreviation look := (lookup ops json_dumps py_str).
Local Abbreviation look_ev := (lookup_event json_dumps py_str).
Local Abbreviation chk := (checked status_error).

Lemma store_gate_spec self r response :
  store_gate self r response = true <->
  cache_active self = true /\ eligible_for_store r response.
Proof.
  unfold store_gate, eligible_for_store.
  rewrite !andb_true_iff, Z.leb_le, !Z.ltb_lt, String.eqb_eq. tauto.
Qed.

(** [live_request], path by path. *)
Lemma live_request_eq self r w :
  live self r w =
  match httpx_request r with
  | inl e => (inl (translate_error self r e), (w.1, (w.2 ++ [NetworkCall r])%list))
  | inr response =>
      if store_gate self r response then
        match ops_cache_response ops response w.1 with
        | (inl e, c') =>
            (inl (translate_error self r e),
             (c', (w.2 ++ [NetworkCall r; CacheStore response])%list))
        | (inr _, c') =>
            (chk self r response,
             (c', (w.2 ++ [NetworkCall r; CacheStore response])%list))
        end
      else (chk self r response, (w.1, (w.2 ++ [NetworkCall r])%list))
  end.
Proof.
  unfold live_request, run_try, run_bind, call_httpx, checked.
  destruct w as [c tr]; simpl.
  destruct (httpx_request r) as [e|response]; [done|].
  destruct (store_gate self r response).
  - unfold call_cache_response; simpl.
    destruct (ops_cache_response ops response c) as [[e|[]] c']; simpl;
      rewrite <- app_assoc; simpl; [done|].
    unfold raise_for_status, run_raise, run_ret.
    by destruct (status_error response).
  - unfold run_ret, raise_for_status, run_raise; simpl.
    by destruct (status_error response).
Qed.

(** [request], path by path. *)
Lemma execute_eq self r c :
  exec self r c =
  if cache_active self then
    match look r c with
    | (inl e, c') => (inl e, (c', [look_ev r]))
    | (inr (Some resp), c') => (inr resp, (c', [look_ev r]))
    | (inr None, c') => live self r (c', [look_ev r])
    end
  else live self r (c, []).
Proof.
  unfold execute, request, run_bind.
  destruct (cache_active self); [|done].
  unfold call_get_cached_response, lookup, lookup_event; simpl.
  destruct (ops_get_cached_response _ _ _ _ _ _ _) as [[e|[resp|]] c']; done.
Qed.

(** Take apart a membership in an explicit list of events. *)
Ltac in_events H :=
  repeat (apply elem_of_cons in H as [H|H]; [try discriminate H|]);
  try (by apply elem_of_nil in H).

Lemma live_request_trace self r w :
  (live self r w).2.2 = (w.2 ++ [NetworkCall r])%list
  \/ exists response,
       httpx_request r = inr response /\ store_gate self r response = true
       /\ (live self r w).2.2 = (w.2 ++ [NetworkCall r; CacheStore response])%list.
Proof.
  rewrite live_request_eq.
  destruct (httpx_request r) as [e|response]; [by left|].
  destruct (store_gate self r response) eqn:Hgate; [|by left].
  right. exists response.
  by destruct (ops_cache_response ops response w.1) as [[e|u] c'].
Qed.

(** The events of a call: a lookup when the cache is active, then a
    network call unless the lookup hit or raised, then a store when the
    gate opened. *)
Lemma execute_trace self r c :
  let tr := (exec self r c).2.2 in
  (cache_active self = true /\ tr = [look_ev r])
  \/ (cache_active self = false /\ tr = [NetworkCall r])
  \/ (cache_active self = true /\ tr = [look_ev r; NetworkCall r])
  \/ (cache_active self = true /\
      exists response,
        httpx_request r = inr response /\ eligible_for_store r response
        /\ tr = [look_ev r; NetworkCall r; CacheStore response]).
Proof.
  cbv zeta. rewrite execute_eq.
  destruct (cache_active self) eqn:Hact.
  - destruct (look r c) as [[e|[resp|]] c'] eqn:Hlook; simpl; [by left|by left|].
    destruct (live_request_trace self r (c', [look_ev r]))
      as [Htr|(response & Hnet & Hgate & Htr)]; rewrite Htr; simpl.
    + right; right; by left.
    + right; right; right. split; [done|]. exists response.
      apply store_gate_spec in Hgate. tauto.
  - destruct (live_request_trace self r (c, []))
      as [Htr|(response & Hnet & Hgate & Htr)]; rewrite Htr; simpl.
    + right; by left.
    + apply store_gate_spec in Hgate. destruct Hgate; congruence.
Qed.

(** C4.  A store event of a call carries the response the server
    returned, and that response has a 2xx status, a body under 1 MiB and
    a method that upper-cases to GET.  When the response misses one of
    the three, the call has no store event and the cache state is the
    one the lookup left (or the initial one when no lookup was made),
    whatever the cache and its configuration. *)
Theorem store_only_when_eligible self r c :
  (forall response,
      CacheStore response ∈ (exec self r c).2.2 ->
      httpx_request r = inr response /\ eligible_for_store r response)
  /\ (forall response,
        httpx_request r = inr response ->
        ~ eligible_for_store r response ->
        Forall (fun ev => is_cache_store ev = false) (exec self r c).2.2
        /\ (exec self r c).2.1 = if cache_active self then (look r c).2 else c).
Proof.
  split.
  - intros response Hin.
    destruct (execute_trace self r c)
      as [[_ Htr]|[[_ Htr]|[[_ Htr]|[_ (resp & Hnet & Hel & Htr)]]]];
      rewrite Htr in Hin; in_events Hin.
    by injection Hin as ->.
  - intros response Hnet Hnot.
    assert (Hgate : store_gate self r response = false).
    { destruct (store_gate self r response) eqn:Hg; [|done].
      apply store_gate_spec in Hg. tauto. }
    rewrite execute_eq.
    destruct (cache_active self).
    + destruct (look r c) as [[e|[resp|]] c'] eqn:Hlook; simpl;
        try (split; [by repeat constructor|done]).
      rewrite live_request_eq, Hnet, Hgate. simpl.
      split; [by repeat constructor|done].
    + rewrite live_request_eq, Hnet, Hgate. simpl.
      split; [by repeat constructor|done].
Qed.

(** C5.  A client constructed with [enable_cache=False] makes exactly one
    network call and no cache call; the state of the cache, whatever it
    holds and however it is configured, is the same after the call; and
    the outcome is the one of the live response. *)
Theorem disabled_client_bypasses_cache t v f mc mk r c :
  let self := HttpClient_init t v f false mc mk in
  (exec self r c).2 = (c, [NetworkCall r])
  /\ (exec self r c).1 =
     match httpx_request r with
     | inl e => inl (translate_error self r e)
     | inr response => chk self r response
     end
  /\ forall resp, (exec self r c).1 = inr resp -> httpx_request r = inr resp.
Proof.
  cbv zeta. rewrite execute_eq. simpl.
  rewrite live_request_eq. simpl.
  destruct (httpx_request r) as [e|response]; simpl; [by repeat split|].
  repeat split. intros resp. unfold checked.
  destruct (status_error response); [done|]. by intros [= ->].
Qed.

Lemma translate_error_without_cache self r e :
  translate_error (without_cache self) r e = translate_error self r e.
Proof. by destruct e. Qed.

(** With the cache switched off the call is the live request alone. *)
Lemma execute_without_cache self r c :
  exec (without_cache self) r c =
  match httpx_request r with
  | inl e => (inl (translate_error self r e), (c, [NetworkCall r]))
  | inr response => (chk self r response, (c, [NetworkCall r]))
  end.
Proof.
  rewrite execute_eq. simpl. rewrite live_request_eq. simpl.
  destruct (httpx_request r) as [e|response]; simpl.
  - by rewrite translate_error_without_cache.
  - unfold checked. destruct (status_error response); [|done].
    by rewrite translate_error_without_cache.
Qed.

(** C1 (amended).  [request] puts no guard of its own around the cache
    calls.  (a) An exception of the lookup leaves [request] as it is,
    before any network call.  (b) An exception of the store, after the
    server answered, leaves [request] through the [except] clauses, as
    [RequestError].  (c) When the lookup misses without raising and the
    store, if it is called, returns, the outcome is the one of the same
    client with caching switched off. *)
Theorem cache_failures_reach_caller self r c
    (Hactive : cache_active self = true) :
  (forall e c',
      look r c = (inl e, c') ->
      exec self r c = (inl e, (c', [look_ev r])))
  /\ (forall c' response e c'',
        look r c = (inr None, c') ->
        httpx_request r = inr response ->
        eligible_for_store r response ->
        ops_cache_response ops response c' = (inl e, c'') ->
        exec self r c =
        (inl (translate_error self r e),
         (c'', [look_ev r; NetworkCall r; CacheStore response]))
        /\ exists msg, translate_error self r e = RequestError msg)
  /\ (forall c',
        look r c = (inr None, c') ->
        (forall response,
            httpx_request r = inr response ->
            eligible_for_store r response ->
            exists c'', ops_cache_response ops response c' = (inr tt, c'')) ->
        (exec self r c).1 = (exec (without_cache self) r c).1).
Proof.
  split; [|split].
  - intros e c' Hlook. by rewrite execute_eq, Hactive, Hlook.
  - intros c' response e c'' Hlook Hnet Hel Hstore.
    rewrite execute_eq, Hactive, Hlook, live_request_eq, Hnet.
    assert (store_gate self r response = true) as ->
      by (by apply store_gate_spec).
    simpl. rewrite Hstore. split; [done|]. destruct e; simpl; eauto.
  - intros c' Hlook Hstore.
    rewrite execute_eq, Hactive, Hlook, live_request_eq, execute_without_cache.
    destruct (httpx_request r) as [e|response]; [done|].
    destruct (store_gate self r response) eqn:Hgate; [|done].
    apply store_gate_spec in Hgate as [_ Hel].
    destruct (Hstore response eq_refl Hel) as [c'' Hok]. simpl. by rewrite Hok.
Qed.

(** C2 (amended).  The lookup and the store are not gated alike: the
    lookup is made for every request as soon as the cache is active,
    whatever the method; a store is made only after a lookup of the same
    request and only for GET; so a request whose method is not GET is
    looked up and never stored. *)
Theorem store_implies_lookup self r c :
  (cache_active self = true -> look_ev r ∈ (exec self r c).2.2)
  /\ (forall response,
        CacheStore response ∈ (exec self r c).2.2 ->
        look_ev r ∈ (exec self r c).2.2 /\ upper (req_method r) = "GET")
  /\ (upper (req_method r) <> "GET" ->
      Forall (fun ev => is_cache_store ev = false) (exec self r c).2.2).
Proof.
  pose proof (execute_trace self r c) as Hcases. cbv zeta in Hcases.
  split; [|split].
  - intros Hact.
    destruct Hcases as [[_ ->]|[[Ha _]|[[_ ->]|[_ (resp & _ & _ & ->)]]]];
      [set_solver|congruence|set_solver|set_solver].
  - intros response Hin.
    destruct Hcases as [[_ Htr]|[[_ Htr]|[[_ Htr]|[_ (resp & _ & Hel & Htr)]]]];
      rewrite Htr in Hin |- *; in_events Hin.
    split; [set_solver|]. by destruct Hel as (_ & _ & ?).
  - intros Hne.
    destruct Hcases as [[_ ->]|[[_ ->]|[[_ ->]|[_ (resp & _ & Hel & ->)]]]];
      try (by repeat constructor).
    by destruct Hel as (_ & _ & ?).
Qed.

(** C10 (amended).  With [json_data={}] the body that enters the cache
    key is the one computed without [json_data]: [None] when [data] is
    empty or absent too, [str(data)] otherwise.  The two requests
    therefore send the same lookup and have the same key under any hash. *)
Theorem empty_json_body_is_no_body (r : Request) :
  let data := req_data r in
  cache_body json_dumps py_str (Some []) data = cache_body json_dumps py_str None data
  /\ (dict_truthy data = false -> cache_body json_dumps py_str (Some []) data = None)
  /\ (dict_truthy data = true ->
      cache_body json_dumps py_str (Some []) data = Some (py_str (default [] data)))
  /\ look_ev (with_json_data r (Some [])) = look_ev (with_json_data r None)
  /\ forall digest,
      generate_cache_key digest (req_method r) (req_url r) (req_headers r)
        (req_params r) (cache_body json_dumps py_str (Some []) data)
      = generate_cache_key digest (req_method r) (req_url r) (req_headers r)
          (req_params r) (cache_body json_dumps py_str None data).
Proof.
  cbv zeta. unfold cache_body, lookup_event. simpl.
  repeat split; try done; by intros ->.
Qed.

End ClientFacts.

(** C3.  When the cache is active and the lookup returns a response,
    [request] returns that response; the only event of the call is the
    lookup and the cache is left in the state the lookup produced.  No
    network call is among the events, and the whole result is the same
    whatever httpx would have answered. *)
Theorem cache_hit_short_circuits {C} (ops : CacheOps C) httpx_request status_error
    json_dumps py_str self r c resp c'
    (Hactive : cache_active self = true)
    (Hhit : lookup ops json_dumps py_str r c = (inr (Some resp), c')) :
  let out := execute ops httpx_request status_error json_dumps py_str self r c in
  out = (inr resp, (c', [lookup_event json_dumps py_str r]))
  /\ Forall (fun ev => is_network_call ev = false) out.2.2
  /\ forall other_network,
      execute ops other_network status_error json_dumps py_str self r c = out.
Proof.
  cbv zeta. rewrite !execute_eq, Hactive, Hhit. repeat split.
  - simpl. by repeat constructor.
  - intros other_network. by rewrite execute_eq, Hactive, Hhit.
Qed.

(** A hit on the warm cache at time 150: the stored response comes back
    and there is no network call. *)
Lemma cache_hit_short_circuits_witness :
  (execute (ResponseCache_ops plain_digest body_size 150)
     (serve users_response) error_from_400 plain_dumps plain_dumps
     caching_client get_users warm_cache).1
  = inr (mkResponse 200 json_header "{users: []}" None).
Proof.
  destruct (cache_hit_short_circuits (ResponseCache_ops plain_digest body_size 150)
              (serve users_response) error_from_400 plain_dumps plain_dumps
              caching_client get_users warm_cache
              (mkResponse 200 json_header "{users: []}" None) warm_cache
              eq_refl eq_refl) as [Hrun _].
  rewrite Hrun. reflexivity.
Defined.

(** The store event of a first GET carries the eligible response. *)
Lemma store_only_when_eligible_witness :
  (serve users_response) get_users = inr users_response
  /\ eligible_for_store get_users users_response.
Proof.
  apply (proj1 (store_only_when_eligible
                  (ResponseCache_ops plain_digest body_size 100)
                  (serve users_response) error_from_400 plain_dumps plain_dumps
                  caching_client get_users empty_cache) users_response).
  vm_compute. do 2 apply list_elem_of_further. apply list_elem_of_here.
Defined.

(** With caching off, a response that [request] returns is the one the
    server sent. *)
Lemma disabled_client_bypasses_cache_witness :
  serve users_response get_users = inr users_response.
Proof.
  apply (proj2 (proj2 (disabled_client_bypasses_cache unwritable_cache
                         (serve users_response) error_from_400
                         plain_dumps plain_dumps 30 true true 100 20 get_users tt))
           users_response).
  reflexivity.
Defined.

(** C1 as stated fails: with the cache active and a lookup that raises,
    the call does not end as it does with caching switched off: it raises
    the exception of the cache, where the plain client returns the
    response of the server. *)
Lemma cache_failure_aborts_request :
  ~ (forall (ops : CacheOps unit) (self : HttpClient) (r : Request) e c',
       cache_active self = true ->
       lookup ops plain_dumps plain_dumps r tt = (inl e, c') ->
       (execute ops (serve users_response) error_from_400
          plain_dumps plain_dumps self r tt).1
       = (execute ops (serve users_response) error_from_400
            plain_dumps plain_dumps (without_cache self) r tt).1).
Proof.
  intros H.
  specialize (H unreadable_cache caching_client get_users
                (OtherException "cache index unreadable") tt eq_refl eq_refl).
  vm_compute in H. discriminate H.
Qed.

(** The two failures, run: the lookup's exception comes out as it is, the
    store's as [RequestError]; the plain client returns the response. *)
Example unreadable_cache_run :
  (execute unreadable_cache (serve users_response) error_from_400
     plain_dumps plain_dumps caching_client get_users tt)
  = (inl (OtherException "cache index unreadable"),
     (tt, [CacheLookup "GET" "https://api.example.com/users" None None None])).
Proof. reflexivity. Qed.

Example unwritable_cache_run :
  (execute unwritable_cache (serve users_response) error_from_400
     plain_dumps plain_dumps caching_client get_users tt).1
  = inl (RequestError "Unexpected error during request: disk full").
Proof. reflexivity. Qed.

Example plain_client_run :
  (execute unwritable_cache (serve users_response) error_from_400
     plain_dumps plain_dumps plain_client get_users tt)
  = (inr users_response, (tt, [NetworkCall get_users])).
Proof. reflexivity. Qed.

Lemma cache_failures_reach_caller_witness :
  execute unreadable_cache (serve users_response) error_from_400
    plain_dumps plain_dumps caching_client get_users tt
  = (inl (OtherException "cache index unreadable"),
     (tt, [lookup_event plain_dumps plain_dumps get_users])).
Proof.
  apply (proj1 (cache_failures_reach_caller unreadable_cache
                  (serve users_response) error_from_400
                  plain_dumps plain_dumps caching_client get_users tt eq_refl)).
  reflexivity.
Defined.

(** C2 as stated fails on a GraphQL query sent by POST: the policy admits
    the request and the pipeline looks it up, yet whatever the server
    answers, the pipeline makes no store and the index stays empty. *)
Lemma graphql_post_looked_up_never_stored :
  should_cache_request (config empty_cache) (req_method graphql_query_post)
    (req_headers graphql_query_post)
    (cache_body plain_dumps plain_dumps (req_json_data graphql_query_post)
       (req_data graphql_query_post)) = true
  /\ forall response,
      let out := execute (ResponseCache_ops plain_digest body_size 100)
                   (serve response) error_from_400 plain_dumps plain_dumps
                   caching_client graphql_query_post empty_cache in
      lookup_event plain_dumps plain_dumps graphql_query_post ∈ out.2.2
      /\ Forall (fun ev => is_cache_store ev = false) out.2.2
      /\ index out.2.1 = [].
Proof.
  split; [reflexivity|]. intros response. cbv zeta.
  rewrite execute_eq. simpl. rewrite live_request_eq. simpl.
  assert (store_gate caching_client graphql_query_post response = false) as ->.
  { unfold store_gate.
    replace (String.eqb (upper (req_method graphql_query_post)) "GET")
      with false by reflexivity.
    by rewrite andb_false_r. }
  simpl. repeat split; [set_solver|by repeat constructor].
Qed.

Lemma store_implies_lookup_witness :
  lookup_event plain_dumps plain_dumps get_users
  ∈ (execute (ResponseCache_ops plain_digest body_size 100)
       (serve users_response) error_from_400 plain_dumps plain_dumps
       caching_client get_users empty_cache).2.2.
Proof.
  apply (proj1 (store_implies_lookup (ResponseCache_ops plain_digest body_size 100)
                  (serve users_response) error_from_400 plain_dumps plain_dumps
                  caching_client get_users empty_cache)).
  reflexivity.
Defined.

(** C10 as stated fails: with [json_data={}] and a form body, the body
    that enters the key is [str(data)], not [None]. *)
Lemma empty_json_with_form_data_has_body :
  ~ (forall (json_dumps py_str : Dict -> string) (data : option Dict),
       cache_body json_dumps py_str (Some []) data = None).
Proof.
  intros H.
  specialize (H plain_dumps plain_dumps (Some [("name", PyStr "John")])).
  discriminate H.
Qed.

Lemma empty_json_body_is_no_body_witness :
  cache_body plain_dumps plain_dumps (Some []) (req_data get_users) = None.
Proof.
  apply (empty_json_body_is_no_body plain_dumps plain_dumps get_users).
  reflexivity.
Defined.

(** ** The cacheability policy *)

(** [test_should_cache_request], on the default configuration. *)
Example should_cache_get :
  should_cache_request (default_config "cache") "GET" None None = true.
Proof. reflexivity. Qed.

Example should_not_cache_post :
  should_cache_request (default_config "cache") "POST" None None = false.
Proof. reflexivity. Qed.

Example should_cache_graphql_query :
  should_cache_request (default_config "cache") "POST" (Some json_header)
    (Some query_body) = true.
Proof. reflexivity. Qed.

Example should_not_cache_graphql_mutation :
  should_cache_request (default_config "cache") "POST" (Some json_header)
    (Some mutation_body) = false.
Proof. reflexivity. Qed.

(** A subscription is refused even when POST caching is switched on, and
    a query that does not announce JSON is not taken for GraphQL. *)
Example should_not_cache_subscription :
  should_cache_request (mkCacheConfig true 300 1000 100 true true true "cache")
    "POST" (Some json_header) (Some subscription_body) = false.
Proof. reflexivity. Qed.

Example should_not_cache_query_without_json :
  should_cache_request (default_config "cache") "POST" None (Some query_body) = false.
Proof. reflexivity. Qed.

(** [test_cache_disabled]. *)
Example should_not_cache_when_disabled :
  should_cache_request disabled_config "GET" None None = false.
Proof. reflexivity. Qed.

(** *** Strings and the operation keyword *)
















(** The member name and the quote in front of the document. *)
Local Abbreviation member := (dq ++ "query" ++ dq ++ ": " ++ dq).



(** The first body of [test_should_cache_request] is such a payload. *)
Example query_body_payload :
  query_body = graphql_payload (graphql_document Query " " " users { id } ").
Proof. reflexivity. Qed.




(** A query that asks for a field named [mutationLog] is a query: the
    selection set is behind the opening brace. *)
Example should_cache_query_on_mutation_log :
  should_cache_request (default_config "cache") "POST" (Some json_header)
    (Some (graphql_payload (graphql_document Query " " " mutationLog { id } "))) = true.
Proof. by vm_compute. Qed.

(** ** The store and its bounds *)

Section StoreFacts.

Variable digest : string -> string.
Variable serialized_size : CacheEntry -> N.

Local Abbreviation size_of := (total_size serialized_size).
Local Abbreviation exceeding := (exceeds serialized_size).
Local Abbreviation bounded := (within_bounds serialized_size).
Local Abbreviation enforce := (enforce_limits serialized_size).
Local Abbreviation store := (cache_response digest serialized_size).

Implicit Types (idx : list (string * CacheEntry)) (cfg : CacheConfig).

Lemma exceeds_false cfg idx : exceeding cfg idx = false <-> bounded cfg idx.
Proof.
  unfold exceeds, within_bounds.
  rewrite orb_false_iff, !Z.ltb_ge. tauto.
Qed.

Lemma exceeds_true cfg idx : exceeding cfg idx = true <-> ~ bounded cfg idx.
Proof.
  rewrite <- exceeds_false. destruct (exceeding cfg idx); split; congruence.
Qed.

Lemma bounded_nil cfg : config_valid cfg -> bounded cfg [].
Proof. intros (_ & Hn & Hm). unfold within_bounds. simpl. lia. Qed.

(** *** The oldest entry *)

Lemma oldest_spec idx o :
  oldest idx = Some o ->
  o ∈ idx /\ Forall (fun x => (cached_at o.2 <= cached_at x.2)%Z) idx.
Proof.
  revert o. induction idx as [|x rest IH]; intros o; simpl; [done|].
  destruct (oldest rest) as [y|] eqn:Hrest.
  - destruct (IH y eq_refl) as [Hin Hall].
    destruct (cached_at x.2 <=? cached_at y.2)%Z eqn:Hle; intros [= <-].
    + apply Z.leb_le in Hle. split; [apply list_elem_of_here|].
      constructor; [lia|]. eapply Forall_impl; [exact Hall|]. simpl. lia.
    + apply Z.leb_gt in Hle. split; [by apply list_elem_of_further|].
      constructor; [lia|done].
  - intros [= <-]. destruct rest as [|z rest'].
    + split; [apply list_elem_of_here|]. by repeat constructor.
    + simpl in Hrest. by destruct (oldest rest'); [destruct (_ <=? _)%Z|].
Qed.

Lemma oldest_is_Some idx : idx <> [] -> is_Some (oldest idx).
Proof.
  destruct idx as [|x rest]; [done|]. intros _. simpl.
  destruct (oldest rest); [destruct (_ <=? _)%Z|]; eauto.
Qed.

(** The head is chosen when nothing after it is strictly older. *)
Lemma oldest_head x rest :
  Forall (fun y => (cached_at x.2 <= cached_at y.2)%Z) rest ->
  oldest (x :: rest) = Some x.
Proof.
  intros Hall. simpl. destruct (oldest rest) as [y|] eqn:Hrest; [|done].
  apply oldest_spec in Hrest as [Hin _].
  rewrite Forall_forall in Hall. specialize (Hall y Hin).
  apply Z.leb_le in Hall. by rewrite Hall.
Qed.

(** *** Deleting and writing a key *)

Lemma index_del_length idx k e :
  (k, e) ∈ idx -> S (List.length (index_del k idx)) = List.length idx.
Proof.
  induction idx as [|[k' e'] rest IH]; intros Hin; [by apply elem_of_nil in Hin|].
  simpl. destruct (String.eqb k' k) eqn:Heq; [done|].
  apply String.eqb_neq in Heq.
  apply elem_of_cons in Hin as [[= -> ->]|Hin]; [done|].
  simpl. by rewrite IH.
Qed.

Lemma index_del_size idx k : (size_of (index_del k idx) <= size_of idx)%N.
Proof.
  induction idx as [|[k' e'] rest IH]; simpl; [lia|].
  destruct (String.eqb k' k); simpl; lia.
Qed.

Lemma index_del_head k e rest : index_del k ((k, e) :: rest) = rest.
Proof. simpl. by rewrite String.eqb_refl. Qed.

Lemma index_set_fresh idx k e :
  k ∉ index_keys idx -> index_set k e idx = (idx ++ [(k, e)])%list.
Proof.
  unfold index_keys. induction idx as [|[k' e'] rest IH]; intros Hin; [done|].
  simpl in *. apply not_elem_of_cons in Hin as [Hne Hin].
  destruct (String.eqb k' k) eqn:Heq.
  - apply String.eqb_eq in Heq. congruence.
  - by rewrite IH.
Qed.

Lemma evict_oldest_length idx :
  idx <> [] -> S (List.length (evict_oldest idx)) = List.length idx.
Proof.
  intros Hne. unfold evict_oldest.
  destruct (oldest_is_Some idx Hne) as [[k e] Ho]. rewrite Ho.
  apply oldest_spec in Ho as [Hin _]. by eapply index_del_length.
Qed.

Lemma evict_oldest_size idx : (size_of (evict_oldest idx) <= size_of idx)%N.
Proof.
  unfold evict_oldest. destruct (oldest idx) as [[k e]|]; [|lia].
  apply index_del_size.
Qed.

(** *** The eviction loop *)

(** With fuel for every entry, the loop ends within the bounds. *)
Lemma evict_loop_bounded cfg fuel idx :
  config_valid cfg -> List.length idx <= fuel ->
  bounded cfg (evict_loop serialized_size fuel cfg idx).
Proof.
  intros Hvalid. revert idx. induction fuel as [|fuel IH]; intros idx Hlen; simpl.
  - destruct idx; [by apply bounded_nil|simpl in Hlen; lia].
  - destruct (exceeding cfg idx) eqn:Hex; [|by apply exceeds_false].
    apply IH. destruct idx as [|x rest]; [simpl; lia|].
    pose proof (evict_oldest_length (x :: rest) ltac:(done)) as Hlen'.
    simpl in *. lia.
Qed.

Lemma enforce_limits_bounded cfg idx :
  config_valid cfg -> bounded cfg (enforce cfg idx).
Proof. intros Hvalid. by apply evict_loop_bounded. Qed.

(** Within the bounds nothing is evicted. *)
Lemma enforce_limits_id cfg idx : bounded cfg idx -> enforce cfg idx = idx.
Proof.
  intros Hb. apply exceeds_false in Hb. unfold enforce_limits.
  destruct (List.length idx); simpl; [done|]. by rewrite Hb.
Qed.

(** One entry too many: exactly the oldest goes. *)
Lemma enforce_limits_once cfg idx :
  ~ bounded cfg idx -> bounded cfg (evict_oldest idx) ->
  enforce cfg idx = evict_oldest idx.
Proof.
  intros Hex Hb. apply exceeds_true in Hex. apply exceeds_false in Hb.
  unfold enforce_limits. destruct idx as [|x rest].
  - unfold evict_oldest in Hb. simpl in Hb. congruence.
  - cbn [List.length evict_loop]. rewrite Hex.
    destruct (List.length rest); simpl; [done|]. by rewrite Hb.
Qed.

(** *** One store *)

Lemma cache_response_config now resp ttl rc :
  config (store now resp ttl rc) = config rc.
Proof.
  unfold cache_response. destruct (resp_request resp) as [rq|]; [|done].
  by destruct (storable (config rc) rq resp).
Qed.

Lemma cache_response_bounded now resp ttl rc :
  config_valid (config rc) ->
  bounded (config rc) (index rc)
  \/ (exists rq, resp_request resp = Some rq /\ storable (config rc) rq resp = true) ->
  bounded (config rc) (index (store now resp ttl rc)).
Proof.
  intros Hvalid Hcase. unfold cache_response.
  destruct (resp_request resp) as [rq|] eqn:Hrq.
  - destruct (storable (config rc) rq resp) eqn:Hst.
    + simpl. by apply enforce_limits_bounded.
    + destruct Hcase as [Hb|(rq' & [= <-] & Hst')]; [done|congruence].
  - by destruct Hcase as [Hb|(rq' & [=] & _)].
Qed.

(** *** A run of stores *)

Local Abbreviation key_of := (fun it : Z * SentRequest * Response =>
                                response_key digest it.1.2).
Local Abbreviation line_of := (stored_entry digest).

Lemma size_of_app idx idx' : size_of (idx ++ idx') = (size_of idx + size_of idx')%N.
Proof. unfold total_size. induction idx as [|x rest IH]; simpl; lia. Qed.

Lemma bounded_prefix cfg idx idx' : bounded cfg (idx ++ idx') -> bounded cfg idx.
Proof.
  unfold within_bounds. rewrite size_of_app, length_app. lia.
Qed.

Lemma index_keys_lines cfg items : index_keys (line_of cfg <$> items) = key_of <$> items.
Proof. unfold index_keys. by rewrite <- list_fmap_compose. Qed.

Lemma store_all_cons it rest rc :
  store_all digest serialized_size (it :: rest) rc
  = store_all digest serialized_size rest
      (store it.1.1 (from_network it.1.2 it.2) None rc).
Proof. reflexivity. Qed.

(** The store of a storable response under a new key writes its line
    at the end, before the limits are enforced. *)
Lemma cache_response_fresh cfg idx it :
  storable cfg it.1.2 it.2 = true ->
  key_of it ∉ index_keys idx ->
  store it.1.1 (from_network it.1.2 it.2) None (mkResponseCache cfg idx)
  = mkResponseCache cfg (enforce cfg (idx ++ [line_of cfg it])).
Proof.
  intros Hst Hfresh. unfold cache_response, storable in *. simpl.
  rewrite Hst. unfold with_index. simpl.
  by rewrite index_set_fresh.
Qed.

(** While the bounds hold, every store of a new key appends its line. *)
Lemma store_all_append cfg items : forall idx,
  Forall (fun it => storable cfg it.1.2 it.2 = true) items ->
  NoDup (index_keys idx ++ (key_of <$> items)) ->
  bounded cfg (idx ++ (line_of cfg <$> items)) ->
  store_all digest serialized_size items (mkResponseCache cfg idx)
  = mkResponseCache cfg (idx ++ (line_of cfg <$> items)).
Proof.
  induction items as [|it rest IH]; intros idx Hst Hnd Hb.
  - simpl. by rewrite app_nil_r.
  - apply Forall_cons in Hst as [Hit Hrest].
    assert (Hfresh : key_of it ∉ index_keys idx).
    { apply NoDup_app in Hnd as (_ & Hdisj & _).
      intros Hin. apply (Hdisj _ Hin). simpl. apply list_elem_of_here. }
    rewrite store_all_cons, cache_response_fresh by done.
    rewrite enforce_limits_id.
    2:{ eapply bounded_prefix. rewrite <- app_assoc. exact Hb. }
    rewrite (IH (idx ++ [line_of cfg it])%list); [|done| |].
    + by rewrite <- app_assoc.
    + unfold index_keys in *. rewrite fmap_app, <- app_assoc. exact Hnd.
    + by rewrite <- app_assoc.
Qed.

Lemma index_del_keys idx k :
  NoDup (index_keys idx) -> k ∉ index_keys (index_del k idx).
Proof.
  unfold index_keys. induction idx as [|[k' e'] rest IH]; simpl; intros Hnd.
  - apply not_elem_of_nil.
  - apply NoDup_cons in Hnd as [Hk' Hnd].
    destruct (String.eqb k' k) eqn:Heq.
    + apply String.eqb_eq in Heq. by subst.
    + apply String.eqb_neq in Heq. simpl.
      apply not_elem_of_cons. split; [congruence|by apply IH].
Qed.

Lemma snoc_of_length {A} (l : list A) n :
  List.length l = S n -> exists front last, l = (front ++ [last])%list /\ List.length front = n.
Proof.
  intros Hlen. destruct l as [|x l] using rev_ind; [done|].
  exists l, x. split; [done|]. rewrite length_app in Hlen. simpl in Hlen. lia.
Qed.

(** One store more than [max_entries], all of distinct keys and together
    within the size bound: the index is the lines written, less the
    oldest. *)
Lemma store_one_too_many cfg items n :
  max_entries cfg = Z.of_nat n -> List.length items = S n ->
  Forall (fun it => storable cfg it.1.2 it.2 = true) items ->
  NoDup (key_of <$> items) ->
  (Z.of_N (size_of (line_of cfg <$> items)) <= max_size_mb cfg * 1048576)%Z ->
  index (store_all digest serialized_size items (mkResponseCache cfg []))
  = evict_oldest (line_of cfg <$> items).
Proof.
  intros Hmax Hlen Hst Hnd Hsize.
  destruct (snoc_of_length items n Hlen) as (front & last & -> & Hfront).
  apply Forall_app in Hst as [Hst_front Hst_last].
  apply Forall_cons in Hst_last as [Hst_last _].
  rewrite fmap_app in Hnd. rewrite fmap_app in Hsize. rewrite fmap_app.
  simpl in Hnd, Hsize |- *.
  unfold store_all. rewrite foldl_app. simpl.
  fold (store_all digest serialized_size front (mkResponseCache cfg [])).
  rewrite (store_all_append cfg front []); simpl.
  - rewrite cache_response_fresh; [|done|].
    2:{ rewrite index_keys_lines. apply NoDup_app in Hnd as (_ & Hdisj & _).
        intros Hin. apply (Hdisj _ Hin). apply list_elem_of_here. }
    simpl. apply enforce_limits_once.
    + unfold within_bounds. rewrite length_app, length_fmap. simpl. lia.
    + assert (Hne : ((line_of cfg <$> front) ++ [line_of cfg last])%list <> [])
        by (destruct (line_of cfg <$> front); discriminate).
      pose proof (evict_oldest_length _ Hne) as Hl.
      pose proof (evict_oldest_size ((line_of cfg <$> front) ++ [line_of cfg last])) as Hs.
      rewrite length_app, length_fmap in Hl. simpl in Hl.
      unfold within_bounds. split; lia.
  - done.
  - by apply NoDup_app in Hnd as (? & _ & _).
  - unfold within_bounds. rewrite length_fmap. rewrite size_of_app in Hsize. split; lia.
Qed.

(** C6 (amended).  (a) With limits that are not negative, whatever the
    index held, a store that writes an entry leaves the index within
    both bounds, and a store that writes nothing keeps an index that was
    within them.  (b) Storing [max_entries + 1] entries of distinct keys,
    which fit the size bound together, into an empty cache leaves
    exactly [max_entries] entries: all the lines written but one, which
    has the smallest [cached_at]; when no later store has an earlier
    clock reading, it is the first one stored. *)
Theorem store_keeps_bounds :
  (forall now resp ttl rc,
      config_valid (config rc) ->
      bounded (config rc) (index rc)
      \/ (exists rq, resp_request resp = Some rq
                    /\ storable (config rc) rq resp = true) ->
      bounded (config rc) (index (store now resp ttl rc)))
  /\ (forall cfg items n,
        max_entries cfg = Z.of_nat n -> List.length items = S n ->
        Forall (fun it => storable cfg it.1.2 it.2 = true) items ->
        NoDup (key_of <$> items) ->
        (Z.of_N (size_of (line_of cfg <$> items))
         <= max_size_mb cfg * 1048576)%Z ->
        let idx := index (store_all digest serialized_size items
                            (mkResponseCache cfg [])) in
        List.length idx = n
        /\ (exists evicted,
              (evicted ∈ (line_of cfg <$> items))
              /\ (idx = index_del (fst evicted) (line_of cfg <$> items))
              /\ (fst evicted ∉ index_keys idx)
              /\ Forall (fun kv => (cached_at (snd evicted) <= cached_at (snd kv))%Z)
                        (line_of cfg <$> items))
        /\ (forall first rest,
              items = first :: rest ->
              Forall (fun it => (first.1.1 <= it.1.1)%Z) rest ->
              idx = line_of cfg <$> rest)).
Proof.
  split; [exact cache_response_bounded|].
  intros cfg items n Hmax Hlen Hst Hnd Hsize idx. subst idx.
  rewrite (store_one_too_many cfg items n) by done.
  assert (Hne : (line_of cfg <$> items) <> []) by (by destruct items).
  split; [|split].
  - pose proof (evict_oldest_length _ Hne) as Hl.
    rewrite length_fmap in Hl. lia.
  - destruct (oldest_is_Some _ Hne) as [o Ho].
    destruct (oldest_spec _ _ Ho) as [Hin Hall].
    exists o. unfold evict_oldest. rewrite Ho. destruct o as [k e]. simpl.
    repeat split; [done| |done].
    apply index_del_keys. by rewrite index_keys_lines.
  - intros first rest -> Hfirst. simpl. unfold evict_oldest.
    rewrite oldest_head.
    + change (line_of cfg first) with
        (response_key digest first.1.2,
         entry_of first.1.1 (default_ttl cfg) first.1.2 first.2).
      cbv beta iota. by rewrite index_del_head.
    + apply Forall_fmap. eapply Forall_impl; [exact Hfirst|]. by intros it.
Qed.

End StoreFacts.

(** [test_max_entries_cleanup]: three stores with [max_entries=2] leave
    the second and the third. *)
Example max_entries_cleanup :
  index_keys (index (store_all plain_digest body_size three_stores
                       (mkResponseCache two_entries_config [])))
  = [ "GET|https://api.example.com/users/1|||";
      "GET|https://api.example.com/users/2|||" ].
Proof. reflexivity. Qed.

(** The same three stores when the size bound is the tighter one: with no
    room at all nothing stays, and with one megabyte for entries of
    600 000 bytes a single entry stays, the last one stored. *)
Example three_stores_no_room :
  index (store_all plain_digest body_size three_stores
           (mkResponseCache no_room_config [])) = [].
Proof. reflexivity. Qed.

Example three_heavy_stores :
  index_keys (index (store_all plain_digest heavy_size three_stores
                       (mkResponseCache one_mb_config [])))
  = [ "GET|https://api.example.com/users/2|||" ].
Proof. reflexivity. Qed.

(** C6 as stated fails in its second half: [max_entries + 1] entries of
    distinct keys, each one storable, do not always leave [max_entries]
    entries, because the size bound evicts as well. *)
Lemma size_bound_leaves_fewer_entries :
  ~ (forall (size : CacheEntry -> N) cfg (items : list (Z * SentRequest * Response)) n,
       max_entries cfg = Z.of_nat n -> List.length items = S n ->
       Forall (fun it => storable cfg it.1.2 it.2 = true) items ->
       NoDup ((fun it => response_key plain_digest it.1.2) <$> items) ->
       List.length (index (store_all plain_digest size items
                             (mkResponseCache cfg []))) = n).
Proof.
  intros H.
  specialize (H heavy_size one_mb_config three_stores 2 eq_refl eq_refl).
  assert (Hlen : List.length
                   (index (store_all plain_digest heavy_size three_stores
                             (mkResponseCache one_mb_config []))) = 2).
  { apply H.
    - by repeat constructor.
    - apply (bool_decide_unpack _). by vm_compute. }
  vm_compute in Hlen. discriminate Hlen.
Qed.

Lemma store_keeps_bounds_witness :
  List.length (index (store_all plain_digest body_size three_stores
                        (mkResponseCache two_entries_config []))) = 2.
Proof.
  apply (proj2 (store_keeps_bounds plain_digest body_size) two_entries_config
           three_stores 2).
  - reflexivity.
  - reflexivity.
  - by repeat constructor.
  - apply (bool_decide_unpack _). by vm_compute.
  - vm_compute. discriminate.
Defined.

(* ===================================================================== *)
(** * Properties of the further code *)
(* ===================================================================== *)

Set Warnings "-clear-no-such-hyp".

(** ** [_batch_requests] *)

Lemma range_up_concat {A} (l : list A) size fuel : forall start,
  (0 < size)%Z -> (0 <= start)%Z ->
  (Z.of_nat (List.length l) - start <= Z.of_nat fuel)%Z ->
  List.concat ((fun i => py_slice l i (i + size))
                 <$> range_up fuel start (Z.of_nat (List.length l)) size)
  = drop (Z.to_nat start) l.
Proof.
  induction fuel as [|fuel IH]; intros start Hsize Hstart Hfuel; simpl.
  - symmetry. apply drop_ge. lia.
  - destruct (start <? Z.of_nat (List.length l))%Z eqn:Hlt.
    + simpl. rewrite IH by lia. unfold py_slice.
      replace (Z.to_nat (start + size - start)) with (Z.to_nat size) by lia.
      replace (Z.to_nat (start + size)) with (Z.to_nat start + Z.to_nat size) by lia.
      rewrite <- drop_drop. apply take_drop.
    + apply Z.ltb_ge in Hlt. symmetry. apply drop_ge. lia.
Qed.

(** The [k]-th value of an upward range. *)
Lemma range_up_lookup fuel : forall start stop step (k : nat),
  (0 < step)%Z -> (stop - start <= Z.of_nat fuel)%Z ->
  range_up fuel start stop step !! k
  = if (start + Z.of_nat k * step <? stop)%Z
    then Some (start + Z.of_nat k * step)%Z else None.
Proof.
  induction fuel as [|fuel IH]; intros start stop step k Hstep Hfuel; simpl.
  - destruct (_ <? _)%Z eqn:Hlt; [|done]. apply Z.ltb_lt in Hlt. nia.
  - destruct (start <? stop)%Z eqn:Hstart.
    + destruct k as [|k].
      * replace (start + Z.of_nat 0 * step)%Z with start by lia.
        by rewrite Hstart.
      * replace (start + Z.of_nat (S k) * step)%Z
          with (start + step + Z.of_nat k * step)%Z by lia.
        apply IH; lia.
    + apply Z.ltb_ge in Hstart.
      destruct (_ <? _)%Z eqn:Hlt; [|done]. apply Z.ltb_lt in Hlt. nia.
Qed.

(** The number of values of an upward range, without division: [n] steps
    reach [stop] and [n - 1] do not. *)
Lemma range_up_length fuel : forall start stop step,
  (0 < step)%Z -> (start <= stop)%Z -> (stop - start <= Z.of_nat fuel)%Z ->
  let n := Z.of_nat (List.length (range_up fuel start stop step)) in
  (start + n * step - step < stop <= start + n * step)%Z.
Proof.
  induction fuel as [|fuel IH]; intros start stop step Hstep Hle Hfuel; simpl.
  - lia.
  - destruct (start <? stop)%Z eqn:Hstart; simpl.
    + apply Z.ltb_lt in Hstart.
      destruct (Z_le_gt_dec (start + step) stop) as [Hnext|Hnext].
      * specialize (IH (start + step)%Z stop step Hstep Hnext ltac:(lia)).
        simpl in IH. lia.
      * destruct fuel as [|fuel']; simpl; [lia|].
        destruct (start + step <? stop)%Z eqn:Hn; [apply Z.ltb_lt in Hn; lia|].
        simpl. lia.
    + apply Z.ltb_ge in Hstart. lia.
Qed.

(** X1.  For a positive batch size the batches, put end to end, are the
    list of requests: none is lost, repeated or moved. *)
Theorem batch_requests_concat {A} (requests : list A) batch_size
    (Hsize : (0 < batch_size)%Z) :
  exists batches,
    _batch_requests requests batch_size = inr batches
    /\ List.concat batches = requests.
Proof.
  unfold _batch_requests, py_range.
  destruct (batch_size =? 0)%Z eqn:Hz; [apply Z.eqb_eq in Hz; lia|].
  destruct (0 <? batch_size)%Z eqn:Hp; [|apply Z.ltb_ge in Hp; lia].
  eexists. split; [reflexivity|].
  rewrite range_up_concat by lia. done.
Qed.

Example batch_requests_five_by_two :
  _batch_requests [1; 2; 3; 4; 5]%nat 2 = inr [[1; 2]; [3; 4]; [5]]%nat.
Proof. reflexivity. Qed.

Lemma batch_requests_concat_witness :
  exists batches,
    _batch_requests [1; 2; 3; 4; 5]%nat 2 = inr batches
    /\ List.concat batches = [1; 2; 3; 4; 5]%nat.
Proof. apply batch_requests_concat. lia. Defined.

(** X2.  For a positive batch size, the [k]-th batch is the slice of the
    requests from [k * batch_size]; it is not empty and holds
    [batch_size] requests at most, and exactly that many unless it is the
    last one.  The number [n] of batches is the least with
    [n * batch_size] not below the number of requests. *)
Theorem batch_requests_sizes {A} (requests : list A) batch_size batches
    (Hsize : (0 < batch_size)%Z)
    (Hrun : _batch_requests requests batch_size = inr batches) :
  (forall (k : nat) b,
      batches !! k = Some b ->
      b = take (Z.to_nat batch_size) (drop (k * Z.to_nat batch_size) requests)
      /\ b <> []
      /\ (Z.of_nat (List.length b) <= batch_size)%Z
      /\ (S k < List.length batches -> Z.of_nat (List.length b) = batch_size))
  /\ let n := Z.of_nat (List.length batches) in
     (n * batch_size - batch_size < Z.of_nat (List.length requests)
      <= n * batch_size)%Z.
Proof.
  unfold _batch_requests, py_range in Hrun.
  destruct (batch_size =? 0)%Z eqn:Hz; [apply Z.eqb_eq in Hz; lia|].
  destruct (0 <? batch_size)%Z eqn:Hp; [|apply Z.ltb_ge in Hp; lia].
  injection Hrun as <-.
  set (len := Z.of_nat (List.length requests)) in *.
  set (starts := range_up (Z.to_nat (len - 0)) 0 len batch_size).
  assert (Hlookup : forall k : nat,
             starts !! k = if (Z.of_nat k * batch_size <? len)%Z
                           then Some (Z.of_nat k * batch_size)%Z else None).
  { intros k. unfold starts. rewrite range_up_lookup by lia. done. }
  split.
  - intros k b Hb. rewrite list_lookup_fmap, Hlookup in Hb.
    destruct (Z.of_nat k * batch_size <? len)%Z eqn:Hk; [|done].
    apply Z.ltb_lt in Hk. injection Hb as <-. unfold py_slice.
    replace (Z.to_nat (Z.of_nat k * batch_size + batch_size - Z.of_nat k * batch_size))
      with (Z.to_nat batch_size) by lia.
    replace (Z.to_nat (Z.of_nat k * batch_size)) with (k * Z.to_nat batch_size) by nia.
    assert (Hlen : List.length
                     (take (Z.to_nat batch_size) (drop (k * Z.to_nat batch_size) requests))
                   = Z.to_nat batch_size `min` (List.length requests - k * Z.to_nat batch_size)).
    { by rewrite length_take, length_drop. }
    repeat split.
    + intros Hnil. rewrite Hnil in Hlen. simpl in Hlen. unfold len in *. nia.
    + rewrite Hlen. lia.
    + intros Hnext. rewrite length_fmap in Hnext.
      apply lookup_lt_is_Some_2 in Hnext as [i Hi].
      rewrite Hlookup in Hi.
      destruct (Z.of_nat (S k) * batch_size <? len)%Z eqn:Hk'; [|done].
      apply Z.ltb_lt in Hk'. rewrite Hlen. unfold len in *. nia.
  - cbv zeta. rewrite length_fmap.
    pose proof (range_up_length (Z.to_nat (len - 0)) 0 len batch_size
                  ltac:(lia) ltac:(unfold len; lia) ltac:(unfold len; lia)) as Hn.
    cbv zeta in Hn. fold starts in Hn. lia.
Qed.

Lemma batch_requests_sizes_witness :
  (let n := Z.of_nat (List.length [[1; 2]; [3; 4]; [5]]%nat) in
   n * 2 - 2 < Z.of_nat (List.length [1; 2; 3; 4; 5]%nat) <= n * 2)%Z.
Proof.
  apply (proj2 (batch_requests_sizes [1; 2; 3; 4; 5]%nat 2 [[1; 2]; [3; 4]; [5]]%nat
                  ltac:(lia) eq_refl)).
Defined.

(** X3.  A batch size of zero makes the loop raise [ValueError] before any
    batch is yielded; a negative one yields no batch at all, whatever the
    requests; and so does an empty list of requests. *)
Theorem batch_requests_degenerate {A} (requests : list A) batch_size :
  (batch_size = 0%Z ->
   _batch_requests requests batch_size
   = inl (ValueError "range() arg 3 must not be zero"))
  /\ ((batch_size < 0)%Z -> _batch_requests requests batch_size = inr [])
  /\ (batch_size <> 0%Z -> _batch_requests (@nil A) batch_size = inr []).
Proof.
  unfold _batch_requests, py_range. repeat split.
  - by intros ->.
  - intros Hneg.
    destruct (batch_size =? 0)%Z eqn:Hz; [apply Z.eqb_eq in Hz; lia|].
    destruct (0 <? batch_size)%Z eqn:Hp; [apply Z.ltb_lt in Hp; lia|].
    replace (Z.to_nat (0 - Z.of_nat (List.length requests))) with 0%nat by lia.
    done.
  - intros Hnz.
    destruct (batch_size =? 0)%Z eqn:Hz; [apply Z.eqb_eq in Hz; lia|].
    by destruct (0 <? batch_size)%Z.
Qed.

Lemma batch_requests_degenerate_witness :
  _batch_requests [1; 2; 3]%nat (-2) = inr [].
Proof.
  apply (proj1 (proj2 (batch_requests_degenerate [1; 2; 3]%nat (-2)))). lia.
Defined.

(** ** The request list of [parallel_requests] *)

Lemma lstrip_no_lead c s : ~ (exists rest, lstrip c s = String c rest).
Proof.
  induction s as [|a s IH]; simpl; [by intros [rest ?]|].
  destruct (Ascii.eqb a c) eqn:Heq; [done|].
  intros [rest [= -> _]]. by rewrite Ascii.eqb_refl in Heq.
Qed.

Lemma rstrip_no_trail c s : ~ (exists front, rstrip c s = front ++ String c EmptyString).
Proof.
  induction s as [|a s IH]; simpl.
  - intros [[|? ?] ?]; discriminate.
  - destruct (rstrip c s) as [|b rest] eqn:Hs.
    + destruct (Ascii.eqb a c) eqn:Heq.
      * intros [[|? ?] ?]; discriminate.
      * intros [[|x [|? ?]] Hfront]; simpl in Hfront; try discriminate.
        injection Hfront as ->. by rewrite Ascii.eqb_refl in Heq.
    + intros [[|x front] Hfront]; simpl in Hfront; [discriminate|].
      injection Hfront as -> Hrest. apply IH. by exists front.
Qed.

Lemma rstrip_trailing c s : rstrip c (s ++ String c EmptyString) = rstrip c s.
Proof.
  induction s as [|a s IH]; simpl.
  - by rewrite Ascii.eqb_refl.
  - by rewrite IH.
Qed.

Lemma lstrip_leading c s : lstrip c (String c s) = lstrip c s.
Proof. simpl. by rewrite Ascii.eqb_refl. Qed.

(** X4.  With URLs and a method on the command line (and no file), there
    is one request per URL, in the order given; the [i]-th carries the
    upper-cased method and the id [req_] followed by [i + 1], and no two
    requests share an id. *)
Theorem prepare_requests_ids exists_ file method base_url urls
    (Hfile : str_truthy file = false)
    (Hurls : urls <> [])
    (Hmethod : str_truthy method = true) :
  exists requests,
    prepare_requests exists_ file method base_url urls = inr requests
    /\ List.length requests = List.length urls
    /\ (forall (i : nat) url,
          urls !! i = Some url ->
          requests !! i
          = Some (mkParallelRequest (upper (default "" method))
                    (full_url base_url url) ("req_" ++ pretty (i + 1)%nat)))
    /\ NoDup (pr_request_id <$> requests).
Proof.
  unfold prepare_requests. rewrite Hfile, Hmethod.
  destruct urls as [|u0 urls0]; [done|]. set (urls := u0 :: urls0). simpl negb.
  cbv iota. eexists. split; [reflexivity|]. split; [|split].
  - apply length_imap.
  - intros i url Hi. by rewrite list_lookup_imap, Hi.
  - apply NoDup_alt. intros i j id Hi Hj.
    rewrite list_lookup_fmap, list_lookup_imap in Hi, Hj.
    destruct (urls !! i) as [ui|]; [|done].
    destruct (urls !! j) as [uj|]; [|done].
    simpl in Hi, Hj. rewrite <- Hj in Hi. injection Hi as Hi.
    change (pretty (i + 1)%nat = pretty (j + 1)%nat) in Hi.
    apply pretty_nat_inj in Hi. lia.
Qed.

Example prepare_two_urls :
  prepare_requests (fun _ => true) None (Some "get") (Some "https://api.example.com/")
    ["/users"; "https://other.example.com/x"]
  = inr [ mkParallelRequest "GET" "https://api.example.com/users" "req_1";
          mkParallelRequest "GET" "https://other.example.com/x" "req_2" ].
Proof. reflexivity. Qed.

Lemma prepare_requests_ids_witness :
  exists requests,
    prepare_requests (fun _ => true) None (Some "get") (Some "https://api.example.com/")
      ["/users"; "https://other.example.com/x"] = inr requests
    /\ List.length requests = 2.
Proof.
  destruct (prepare_requests_ids (fun _ => true) None (Some "get")
              (Some "https://api.example.com/")
              ["/users"; "https://other.example.com/x"]
              eq_refl ltac:(discriminate) eq_refl)
    as (requests & Hrun & Hlen & _).
  exists requests. split; [exact Hrun|exact Hlen].
Defined.

(** X5.  The preparation ends in [sys.exit(1)] in three cases only: a file
    is named that does not exist; neither a file nor a URL is given; URLs
    are given without a method.  When a file that exists is named, the
    list stays empty whatever URLs were given beside it. *)
Theorem prepare_requests_exit exists_ file method base_url urls :
  (prepare_requests exists_ file method base_url urls = inl 1%Z <->
   (str_truthy file = true /\ exists_ (default "" file) = false)
   \/ (str_truthy file = false /\ urls = [])
   \/ (str_truthy file = false /\ urls <> [] /\ str_truthy method = false))
  /\ (str_truthy file = true -> exists_ (default "" file) = true ->
      prepare_requests exists_ file method base_url urls = inr []).
Proof.
  unfold prepare_requests.
  destruct (str_truthy file), (exists_ (default "" file)), urls as [|u urls],
    (str_truthy method); simpl; (split; [split|]); naive_solver.
Qed.

Lemma prepare_requests_exit_witness :
  prepare_requests (fun _ => true) (Some "requests.txt") None None
    ["https://api.example.com/users"] = inr [].
Proof.
  apply (proj2 (prepare_requests_exit (fun _ => true) (Some "requests.txt") None None
                  ["https://api.example.com/users"])); reflexivity.
Defined.

(** X6.  An absolute URL, and any URL when there is no base, is used as it
    is.  Otherwise the URL is the base without its trailing slashes, one
    slash, and the URL without its leading slashes; so a slash more at the
    end of the base or at the head of the URL changes nothing. *)
Theorem full_url_join base_url url :
  (str_truthy base_url = false \/ is_absolute url = true ->
   full_url base_url url = url)
  /\ (str_truthy base_url = true -> is_absolute url = false ->
      let base := default "" base_url in
      full_url base_url url = rstrip "/" base ++ "/" ++ lstrip "/" url
      /\ ~ (exists front, rstrip "/" base = front ++ "/")
      /\ ~ (exists rest, lstrip "/" url = String "/" rest)
      /\ full_url (Some (base ++ "/")) url = full_url base_url url
      /\ full_url base_url (String "/" url) = full_url base_url url).
Proof.
  unfold full_url, is_absolute. split.
  - intros [-> | ->]; [done|]. by rewrite andb_false_r.
  - intros Hbase Habs. cbv zeta. rewrite Hbase, Habs. simpl.
    split; [done|]. split; [|split; [|split]].
    + apply rstrip_no_trail.
    + apply lstrip_no_lead.
    + destruct base_url as [[|b base]|]; try done. simpl default.
      replace (str_truthy (Some (String b base ++ "/"))) with true by done.
      cbn [andb negb]. by rewrite rstrip_trailing.
    + done.
Qed.

Lemma full_url_join_witness :
  full_url (Some "https://api.example.com//") "//users"
  = rstrip "/" "https://api.example.com//" ++ "/" ++ lstrip "/" "//users".
Proof.
  apply (proj2 (full_url_join (Some "https://api.example.com//") "//users"));
    reflexivity.
Defined.

Example full_url_slashes :
  full_url (Some "https://api.example.com//") "//users" = "https://api.example.com/users".
Proof. reflexivity. Qed.

(** ** The summary of [parallel_requests] *)

Section SummaryFacts.

Context {Error : Type}.
Variable error_truthy : Error -> bool.

Local Abbreviation Result := (@BatchResult Error).

(** X7.  Every result is counted once in the summary: as failed when its
    error is truthy, as successful when it has a response and no such
    error, and otherwise in neither count; so the two counts never add up
    to more than the total, and add up to it exactly when every result
    has a response or an error. *)
Theorem summary_counts (results : list Result) :
  let neither :=
    List.length (filter (fun r => has_response r = false
                                  /\ has_error error_truthy r = false) results) in
  summary_total results
  = summary_successful error_truthy results + summary_failed error_truthy results
    + neither
  /\ summary_successful error_truthy results + summary_failed error_truthy results
     <= summary_total results.
Proof.
  cbv zeta. unfold summary_total, summary_successful, summary_failed.
  assert (Hsum : List.length results
    = List.length (filter (fun r => has_response r
                                    && negb (has_error error_truthy r) = true) results)
      + List.length (filter (fun r => has_error error_truthy r = true) results)
      + List.length (filter (fun r => has_response r = false
                                      /\ has_error error_truthy r = false) results)).
  { induction results as [|r results IH]; [done|].
    rewrite !filter_cons. simpl List.length at 1. rewrite IH.
    destruct (has_response r) eqn:Hr, (has_error error_truthy r) eqn:He;
      repeat case_decide; simpl in *; try lia; naive_solver. }
  split; [exact Hsum|lia].
Qed.

Lemma status_counts_step (results : list Result) : forall (counts : gmap Z nat) s,
  foldl (fun counts (r : Result) =>
           match r.1.2 with
           | Some resp =>
               <[resp_status_code resp :=
                   (default 0 (counts !! resp_status_code resp) + 1)%nat]> counts
           | None => counts
           end) counts results !! s
  = match List.length (with_status s results) with
    | O => counts !! s
    | S n => Some (default 0 (counts !! s) + S n)
    end.
Proof.
  unfold with_status.
  induction results as [|r results IH]; intros counts s; [done|].
  simpl foldl. rewrite IH, filter_cons.
  destruct r as [[id [resp|]] err]; simpl.
  - destruct (decide (resp_status_code resp = s)) as [->|Hne].
    + rewrite decide_True by done. rewrite lookup_insert_eq. simpl.
      match goal with
      | |- match ?a with _ => _ end = Some (_ + S ?b) => change b with a; destruct a
      end; f_equal; lia.
    + rewrite decide_False by congruence. by rewrite lookup_insert_ne.
  - done.
Qed.

(** X8.  [status_counts] has a key for a status exactly when some result
    carries a response of that status, and the value under the key is the
    number of such results, whether or not they also carry an error. *)
Theorem status_counts_spec (results : list Result) (s : Z) :
  (status_counts results !! s = None <-> with_status s results = [])
  /\ (forall n, status_counts results !! s = Some n ->
       n = List.length (with_status s results) /\ 0 < n)
  /\ default 0 (status_counts results !! s) = List.length (with_status s results).
Proof.
  unfold status_counts. rewrite status_counts_step, lookup_empty.
  destruct (with_status s results) as [|r rest] eqn:Hs; simpl.
  - split; [done|]. split; [|done]. by intros n.
  - split; [done|]. split; [|done]. intros n [= <-]. lia.
Qed.

End SummaryFacts.

Example status_counts_three :
  status_counts
    [ ("req_1", Some (mkResponse 200 [] "a" None), @None string);
      ("req_2", Some (mkResponse 404 [] "b" None), Some "boom");
      ("req_3", None, Some "timeout");
      ("req_4", Some (mkResponse 200 [] "c" None), None) ]
  = <[404%Z := 1]> (<[200%Z := 2]> ∅).
Proof. by vm_compute. Qed.

Lemma status_counts_spec_witness :
  2 = List.length (with_status 200
        [ ("req_1", Some (mkResponse 200 [] "a" None), @None string);
          ("req_4", Some (mkResponse 200 [] "c" None), None) ])
  /\ 0 < 2.
Proof.
  apply (proj1 (proj2 (status_counts_spec
           [ ("req_1", Some (mkResponse 200 [] "a" None), @None string);
             ("req_4", Some (mkResponse 200 [] "c" None), None) ] 200))).
  by vm_compute.
Defined.

(** ** [HttpClient.send], [get] and [post] *)

Lemma with_timeout_same self : with_timeout self (timeout self) = self.
Proof. by destruct self. Qed.

Lemma with_timeout_back self t : with_timeout (with_timeout self t) (timeout self) = self.
Proof. by destruct self. Qed.

Lemma cache_active_with_timeout self t :
  cache_active (with_timeout self t) = cache_active self.
Proof. done. Qed.

Section SendFacts.

Context {C : Type}.
Variable ops : CacheOps C.
Variable httpx_request : Request -> Exn + Response.
Variable status_error : Response -> option string.
Variable json_dumps : Dict -> string.
Variable py_str : Dict -> string.

Local Abbreviation req := (request ops httpx_request status_error json_dumps py_str).
Local Abbreviation snd_ := (send ops httpx_request status_error json_dumps py_str).
Local Abbreviation run := (execute ops httpx_request status_error json_dumps py_str).
Local Abbreviation find := (lookup ops json_dumps py_str).
Local Abbreviation find_ev := (lookup_event json_dumps py_str).

(** X10.  Whatever [send] does and however [request] ends, by a return or
    by an exception, [self] has its own timeout again afterwards, with
    all other attributes as before; and when the timeout of [self.client]
    was the one of [self], as [__init__] leaves it, the whole client
    object is as before. *)
Theorem send_restores_timeout obj rq w :
  co_self (send ops httpx_request status_error json_dumps py_str obj rq w).1.2
  = co_self obj
  /\ (co_client_timeout obj = timeout (co_self obj) ->
      (send ops httpx_request status_error json_dumps py_str obj rq w).1.2 = obj).
Proof.
  unfold send.
  destruct (sr_method rq) as [m|]; [|done].
  destruct (sr_url rq) as [u|]; [|done].
  cbv zeta. simpl.
  destruct (default (timeout (co_self obj)) (sr_timeout rq) =? timeout (co_self obj))%Z;
    simpl; [done|].
  rewrite with_timeout_back. split; [done|].
  intros Hc. destruct obj as [self ct]. simpl in *.
  unfold set_timeouts. simpl. by rewrite with_timeout_back, Hc.
Qed.

(** X11.  With both keys present, [send] is [request] on the same client
    with the timeout of the dictionary in place of its own (its own when
    the dictionary has none): same outcome, same cache state, same
    events.  In particular a timeout of the network call is reported with
    the number of seconds of the dictionary. *)
Theorem send_is_request obj rq w method url
    (Hmethod : sr_method rq = Some method) (Hurl : sr_url rq = Some url) :
  let t := default (timeout (co_self obj)) (sr_timeout rq) in
  let r := request_of method url rq in
  (snd_ obj rq w).1.1 = inr (req (with_timeout (co_self obj) t) r w).1
  /\ (snd_ obj rq w).2 = (req (with_timeout (co_self obj) t) r w).2
  /\ forall m,
       cache_active (co_self obj) = false ->
       httpx_request r = inl (TimeoutException m) ->
       (snd_ obj rq w).1.1
       = inr (inl (RequestError ("Request timeout after " ++ pretty t ++ " seconds"))).
Proof.
  cbv zeta. unfold send. rewrite Hmethod, Hurl. cbv zeta.
  set (t := default (timeout (co_self obj)) (sr_timeout rq)).
  assert (Hself :
    co_self (if negb (t =? timeout (co_self obj))%Z then set_timeouts obj t else obj)
    = with_timeout (co_self obj) t).
  { destruct (t =? timeout (co_self obj))%Z eqn:Ht; simpl; [|done].
    apply Z.eqb_eq in Ht. by rewrite Ht, with_timeout_same. }
  rewrite Hself. simpl. split; [done|]. split; [done|].
  intros m Hact Hnet. f_equal.
  unfold request, run_bind. rewrite cache_active_with_timeout, Hact.
  unfold run_ret.
  rewrite (live_request_eq ops httpx_request status_error), Hnet. done.
Qed.

(** X12.  [post] never writes to the cache, whatever the server answers;
    on a client with an active cache it still asks the cache first, under
    the method POST and the body of the request, and returns a response
    the cache hands out without any network call. *)
Theorem post_never_stores self url headers params json_data data files c :
  let r := mkRequest "POST" url headers params json_data data files in
  let out := post ops httpx_request status_error json_dumps py_str
               self url headers params json_data data files (c, []) in
  (forall resp, CacheStore resp ∉ out.2.2)
  /\ (cache_active self = true ->
      head out.2.2
      = Some (CacheLookup "POST" url headers params
                (cache_body json_dumps py_str json_data data)))
  /\ (forall resp c',
        cache_active self = true -> find r c = (inr (Some resp), c') ->
        out = (inr resp, (c', [find_ev r]))).
Proof.
  cbv zeta. unfold post.
  change (req self ?r (c, [])) with (run self r c).
  set (r := mkRequest "POST" url headers params json_data data files).
  split; [|split].
  - intros resp Hin.
    destruct (execute_trace ops httpx_request status_error json_dumps py_str self r c)
      as [[_ Htr]|[[_ Htr]|[[_ Htr]|[_ (response & _ & Hel & Htr)]]]];
      rewrite Htr in Hin.
    + apply list_elem_of_singleton in Hin. discriminate.
    + apply list_elem_of_singleton in Hin. discriminate.
    + apply elem_of_cons in Hin as [Hin|Hin]; [discriminate|].
      apply list_elem_of_singleton in Hin. discriminate.
    + destruct Hel as (_ & _ & Hget). discriminate Hget.
  - intros Hact.
    destruct (execute_trace ops httpx_request status_error json_dumps py_str self r c)
      as [[_ Htr]|[[Hoff _]|[[_ Htr]|[_ (response & _ & _ & Htr)]]]];
      try (rewrite Htr; done). congruence.
  - intros resp c' Hact Hfind.
    rewrite (execute_eq ops httpx_request status_error json_dumps py_str), Hact, Hfind.
    done.
Qed.

(** X13.  [get] on a client with an active cache asks the cache under the
    method GET and no body; when the cache misses, the server answers
    with a 2xx status and a body under 1 MiB, and the store returns, the
    events are the lookup, one network call and one store of that
    response, in this order, and the outcome is the one of the status
    check on the response. *)
Theorem get_stores_fresh_response self url headers params c c' c'' response
    (Hact : cache_active self = true)
    (Hmiss : ops_get_cached_response ops "GET" url headers params None c = (inr None, c'))
    (Hnet : httpx_request (mkRequest "GET" url headers params None None None)
            = inr response)
    (Hok : (200 <= resp_status_code response < 300)%Z)
    (Hsmall : (Z.of_nat (String.length (resp_content response)) < 1024 * 1024)%Z)
    (Hstore : ops_cache_response ops response c' = (inr tt, c'')) :
  let r := mkRequest "GET" url headers params None None None in
  get ops httpx_request status_error json_dumps py_str self url headers params (c, [])
  = (checked status_error self r response,
     (c'', [CacheLookup "GET" url headers params None; NetworkCall r;
            CacheStore response])).
Proof.
  cbv zeta. unfold get.
  set (r := mkRequest "GET" url headers params None None None).
  change (req self r (c, [])) with (run self r c).
  assert (Hfind : find r c = (inr None, c')) by exact Hmiss.
  rewrite (execute_eq ops httpx_request status_error json_dumps py_str), Hact, Hfind.
  rewrite (live_request_eq ops httpx_request status_error). fold r in Hnet.
  rewrite Hnet.
  assert (Hgate : store_gate self r response = true).
  { apply (proj2 (store_gate_spec httpx_request status_error self r response)).
    split; [done|]. unfold eligible_for_store. done. }
  rewrite Hgate. simpl. rewrite Hstore. done.
Qed.

(** X15.  A response that [request] returns is either the one the cache
    handed out, and then the lookup is the only event, or the one the
    server returned to this very request, and then it passed the status
    check. *)
Theorem request_response_origin self r c resp
    (Hret : (run self r c).1 = inr resp) :
  (cache_active self = true
   /\ exists c', find r c = (inr (Some resp), c') /\ (run self r c).2 = (c', [find_ev r]))
  \/ (httpx_request r = inr resp /\ status_error resp = None
      /\ NetworkCall r ∈ (run self r c).2.2).
Proof.
  revert Hret.
  rewrite (execute_eq ops httpx_request status_error json_dumps py_str).
  assert (Hlive : forall w,
    (live_request ops httpx_request status_error self r w).1 = inr resp ->
    httpx_request r = inr resp /\ status_error resp = None
    /\ NetworkCall r ∈ (live_request ops httpx_request status_error self r w).2.2).
  { intros w. rewrite (live_request_eq ops httpx_request status_error).
    unfold checked.
    destruct (httpx_request r) as [e'|response]; simpl; [done|].
    destruct (store_gate self r response).
    - destruct (ops_cache_response ops response w.1) as [[e'|u] c']; simpl; [done|].
      destruct (status_error response) eqn:Hst; [done|].
      intros [= <-]. repeat split; [done|]. set_solver.
    - destruct (status_error response) eqn:Hst; [done|].
      simpl. intros [= <-]. repeat split; [done|]. set_solver. }
  destruct (cache_active self); [|by right; apply Hlive].
  destruct (find r c) as [[e'|[resp'|]] c'] eqn:Hfind; simpl.
  - done.
  - intros [= <-]. left. eauto.
  - intros Hret. right. by apply Hlive.
Qed.

(** X16.  [request] sends the request to the server exactly when the
    cache is inactive or its lookup misses, and then once: the events of
    a call hold no event twice, no network call other than this request,
    and a network call comes before any store.  Nothing is retried,
    whatever fails. *)
Theorem request_one_network_call self r c :
  let tr := (run self r c).2.2 in
  (NetworkCall r ∈ tr <->
   cache_active self = false \/ exists c', find r c = (inr None, c'))
  /\ NoDup tr
  /\ (forall r', NetworkCall r' ∈ tr -> r' = r)
  /\ (forall resp, CacheStore resp ∈ tr ->
      exists before, tr = (before ++ [NetworkCall r; CacheStore resp])%list).
Proof.
  cbv zeta.
  pose proof (execute_trace ops httpx_request status_error json_dumps py_str self r c)
    as Htrace. cbv zeta in Htrace.
  pose proof (execute_eq ops httpx_request status_error json_dumps py_str self r c)
    as Heq.
  assert (Hlive : forall w,
    NetworkCall r ∈ (live_request ops httpx_request status_error self r w).2.2).
  { intros w.
    destruct (live_request_trace ops httpx_request status_error self r w)
      as [->|(response & _ & _ & ->)]; set_solver. }
  split; [|split; [|split]].
  - split.
    + intros Hin. destruct (cache_active self) eqn:Hact; [|by left]. right.
      rewrite Heq in Hin.
      destruct (find r c) as [[e|[resp|]] c'] eqn:Hfind; simpl in Hin.
      * apply list_elem_of_singleton in Hin. discriminate.
      * apply list_elem_of_singleton in Hin. discriminate.
      * eauto.
    + intros [Hoff|[c' Hfind]]; rewrite Heq.
      * rewrite Hoff. apply Hlive.
      * destruct (cache_active self); [|apply Hlive]. rewrite Hfind. apply Hlive.
  - destruct Htrace as [[_ ->]|[[_ ->]|[[_ ->]|[_ (response & _ & _ & ->)]]]];
      unfold lookup_event; repeat constructor; set_solver.
  - intros r' Hin.
    destruct Htrace as [[_ Htr]|[[_ Htr]|[[_ Htr]|[_ (response & _ & _ & Htr)]]]];
      rewrite Htr in Hin; unfold lookup_event in Hin; set_solver.
  - intros resp Hin.
    destruct Htrace as [[_ Htr]|[[_ Htr]|[[_ Htr]|[_ (response & _ & _ & Htr)]]]];
      rewrite Htr in Hin |- *; unfold lookup_event in Hin.
    + set_solver.
    + set_solver.
    + set_solver.
    + exists [find_ev r]. simpl. repeat f_equal. set_solver.
Qed.

End SendFacts.

(** The client object after a [send] that timed out under a timeout of
    its own. *)
Lemma send_restores_timeout_witness :
  (send unwritable_cache timing_out error_from_400 plain_dumps plain_dumps
     plain_object get_users_dict (tt, [])).1.2 = plain_object.
Proof.
  apply (proj2 (send_restores_timeout unwritable_cache timing_out error_from_400
                  plain_dumps plain_dumps plain_object get_users_dict (tt, []))).
  reflexivity.
Defined.

(** The client has a timeout of 30 seconds, the dictionary one of 5. *)
Lemma send_is_request_witness :
  (send unwritable_cache timing_out error_from_400 plain_dumps plain_dumps
     plain_object get_users_dict (tt, [])).1.1
  = inr (inl (RequestError "Request timeout after 5 seconds")).
Proof.
  apply (proj2 (proj2 (send_is_request unwritable_cache timing_out error_from_400
                         plain_dumps plain_dumps plain_object get_users_dict (tt, [])
                         "GET" "https://api.example.com/users" eq_refl eq_refl))
           "timed out"); reflexivity.
Defined.

Lemma post_never_stores_witness :
  head (post (ResponseCache_ops plain_digest body_size 100) (serve users_response)
          error_from_400 plain_dumps plain_dumps caching_client
          "https://api.example.com/users" None None None None None
          (empty_cache, [])).2.2
  = Some (CacheLookup "POST" "https://api.example.com/users" None None None).
Proof.
  apply (proj1 (proj2 (post_never_stores (ResponseCache_ops plain_digest body_size 100)
                         (serve users_response) error_from_400 plain_dumps plain_dumps
                         caching_client "https://api.example.com/users"
                         None None None None None empty_cache))).
  reflexivity.
Defined.

(** The first [get] of a URL on an empty cache leaves the cache warm. *)
Lemma get_stores_fresh_response_witness :
  get (ResponseCache_ops plain_digest body_size 100) (serve users_response)
    error_from_400 plain_dumps plain_dumps caching_client
    "https://api.example.com/users" None None (empty_cache, [])
  = (inr users_response,
     (warm_cache,
      [CacheLookup "GET" "https://api.example.com/users" None None None;
       NetworkCall get_users; CacheStore users_response])).
Proof.
  apply (get_stores_fresh_response (ResponseCache_ops plain_digest body_size 100)
           (serve users_response) error_from_400 plain_dumps plain_dumps
           caching_client "https://api.example.com/users" None None
           empty_cache empty_cache warm_cache users_response);
    first [reflexivity | by vm_compute].
Defined.

Lemma request_response_origin_witness :
  (cache_active plain_client = true
   /\ exists c',
        lookup unwritable_cache plain_dumps plain_dumps get_users tt
        = (inr (Some users_response), c')
        /\ (execute unwritable_cache (serve users_response) error_from_400
              plain_dumps plain_dumps plain_client get_users tt).2
           = (c', [lookup_event plain_dumps plain_dumps get_users]))
  \/ (serve users_response get_users = inr users_response
      /\ error_from_400 users_response = None
      /\ NetworkCall get_users
         ∈ (execute unwritable_cache (serve users_response) error_from_400
              plain_dumps plain_dumps plain_client get_users tt).2.2).
Proof.
  apply (request_response_origin unwritable_cache (serve users_response)
           error_from_400 plain_dumps plain_dumps plain_client get_users tt).
  reflexivity.
Defined.

Lemma request_one_network_call_witness :
  NetworkCall get_users
  ∈ (execute unwritable_cache (serve users_response) error_from_400
       plain_dumps plain_dumps plain_client get_users tt).2.2.
Proof.
  apply (proj2 (proj1 (request_one_network_call unwritable_cache (serve users_response)
                         error_from_400 plain_dumps plain_dumps plain_client
                         get_users tt))).
  left. reflexivity.
Defined.

(** ** Client certificates *)

Section CertFacts.

Variable isfile : string -> bool.
Variable readable : string -> bool.

Local Abbreviation validate_files := (_validate_cert_files isfile readable).

(** X17.  [_validate_cert_files] returns exactly when the argument is a
    path, or a tuple of two paths, and every file it names exists and
    can be read; [__init__] calls it for a truthy argument only, so
    [None], the empty string and the empty tuple pass without a look at
    the file system. *)
Theorem validate_cert_files_ok cert :
  (validate_files cert = inr tt <->
   (exists p, cert = CertPath p /\ isfile p = true /\ readable p = true)
   \/ (exists c k, cert = CertTuple [c; k]
         /\ isfile c = true /\ isfile k = true
         /\ readable c = true /\ readable k = true))
  /\ (forall arg, cert_truthy arg = false -> init_cert isfile readable arg = inr tt).
Proof.
  split.
  - split.
    + destruct cert as [p|[|c [|k [|x items]]]]; simpl; try done.
      * destruct (isfile p) eqn:Hp, (readable p) eqn:Hr; simpl; try done.
        intros _. left. eauto.
      * destruct (isfile c) eqn:Hc, (isfile k) eqn:Hk, (readable c) eqn:Hrc,
          (readable k) eqn:Hrk; simpl; try done.
        intros _. right. exists c, k. done.
    + intros [(p & -> & Hp & Hr)|(c & k & -> & Hc & Hk & Hrc & Hrk)]; simpl.
      * by rewrite Hp, Hr.
      * by rewrite Hc, Hk, Hrc, Hrk.
  - intros [c|] Htruthy; unfold init_cert; [by rewrite Htruthy|done].
Qed.

(** X18.  An error of [_validate_cert_files] on a pair names a file of
    the pair that is indeed missing or unreadable, and the two files are
    looked for before either is opened for reading: a missing key file
    is reported even when the certificate file cannot be read. *)
Theorem validate_cert_pair_errors c k msg
    (Herr : _validate_cert_files isfile readable (CertTuple [c; k]) = inl (ValueError msg)) :
  ((msg = "Certificate file not found: " ++ c /\ isfile c = false)
   \/ (msg = "Key file not found: " ++ k /\ isfile c = true /\ isfile k = false)
   \/ (msg = "Certificate file not readable: " ++ c
       /\ isfile c = true /\ isfile k = true /\ readable c = false)
   \/ (msg = "Key file not readable: " ++ k
       /\ isfile c = true /\ isfile k = true /\ readable c = true
       /\ readable k = false))
  /\ (isfile c = true -> isfile k = false -> msg = "Key file not found: " ++ k).
Proof.
  revert Herr. simpl.
  destruct (isfile c) eqn:Hc, (isfile k) eqn:Hk, (readable c) eqn:Hrc,
    (readable k) eqn:Hrk; simpl; intros [= <-]; (split; [|done]); tauto.
Qed.

End CertFacts.

(** [s.split(':', 1)] cuts at the first colon. *)
Lemma split1_colon s :
  if contains ":" s
  then exists a b, split1 ":" s = [a; b] /\ s = a ++ ":" ++ b /\ contains ":" a = false
  else split1 ":" s = [s].
Proof.
  induction s as [|x s IH]; [done|].
  cbn [contains split1 String.prefix].
  destruct (ascii_dec ":" x) as [<-|Hx].
  - rewrite Ascii.eqb_refl.
    assert (Hp : String.prefix "" s = true) by (by destruct s).
    rewrite Hp. simpl. exists "", s. done.
  - assert (Hne : Ascii.eqb x ":" = false).
    { apply Ascii.eqb_neq. congruence. }
    rewrite Hne. simpl.
    destruct (contains ":" s).
    + destruct IH as (a & b & -> & -> & Ha). exists (String x a), b.
      repeat split. cbn [contains String.prefix].
      destruct (ascii_dec ":" x) as [Heq|_]; [done|]. exact Ha.
    + by rewrite IH.
Qed.

(** X19.  The command line reads a [--cert] value with a colon as a pair
    cut at the first colon, so that the two parts joined by a colon give
    the value back and the first part holds no colon, and any other
    value as a single path; the [IndexError] of [cert_parts[1]] cannot
    happen.  A path that holds a colon can therefore not be passed as a
    single file.  What it hands to [HttpClient] is never refused for its
    shape. *)
Theorem cert_config_split cert (Hcert : str_truthy (Some cert) = true) :
  ((contains ":" cert = false /\ cert_config (Some cert) = inr (Some (CertPath cert)))
   \/ (contains ":" cert = true
       /\ exists cert_file key_file,
            cert_config (Some cert) = inr (Some (CertTuple [cert_file; key_file]))
            /\ cert = cert_file ++ ":" ++ key_file
            /\ contains ":" cert_file = false))
  /\ forall isfile readable parsed,
       cert_config (Some cert) = inr parsed ->
       init_cert isfile readable parsed <> inl cert_shape_error.
Proof.
  unfold cert_config. rewrite Hcert.
  pose proof (split1_colon cert) as Hsplit.
  destruct (contains ":" cert).
  - destruct Hsplit as (a & b & Hs & Heq & Ha). rewrite Hs. simpl. split.
    + right. split; [done|]. exists a, b. done.
    + intros isfile readable parsed [= <-]. simpl.
      destruct (isfile a), (isfile b), (readable a), (readable b); simpl; discriminate.
  - split; [by left|].
    intros isfile readable parsed [= <-].
    unfold init_cert, cert_truthy. rewrite Hcert. simpl.
    destruct (isfile cert), (readable cert); simpl; discriminate.
Qed.

(** [--cert client.pem:client.key]. *)
Example cert_config_pair :
  cert_config (Some "client.pem:client.key")
  = inr (Some (CertTuple ["client.pem"; "client.key"])).
Proof. reflexivity. Qed.

(** Only the first colon cuts: the rest stays in the key path. *)
Example cert_config_drive_letter :
  cert_config (Some "C:\certs\client.pem")
  = inr (Some (CertTuple ["C"; "\certs\client.pem"])).
Proof. reflexivity. Qed.

Lemma validate_cert_files_ok_witness :
  _validate_cert_files two_files two_files (CertTuple ["client.pem"; "client.key"])
  = inr tt.
Proof.
  apply (proj2 (proj1 (validate_cert_files_ok two_files two_files
                         (CertTuple ["client.pem"; "client.key"])))).
  right. exists "client.pem", "client.key". repeat split; reflexivity.
Defined.

(** The key file is missing and the certificate file is unreadable. *)
Lemma validate_cert_pair_errors_witness :
  "Key file not found: client.key" = "Key file not found: " ++ "client.key".
Proof.
  apply (proj2 (validate_cert_pair_errors (String.eqb "client.pem") (fun _ => false)
                  "client.pem" "client.key" "Key file not found: client.key"
                  eq_refl)); reflexivity.
Defined.

Lemma cert_config_split_witness :
  (contains ":" "client.pem:client.key" = false
   /\ cert_config (Some "client.pem:client.key")
      = inr (Some (CertPath "client.pem:client.key")))
  \/ (contains ":" "client.pem:client.key" = true
      /\ exists cert_file key_file,
           cert_config (Some "client.pem:client.key")
           = inr (Some (CertTuple [cert_file; key_file]))
           /\ "client.pem:client.key" = cert_file ++ ":" ++ key_file
           /\ contains ":" cert_file = false).
Proof.
  apply (proj1 (cert_config_split "client.pem:client.key" eq_refl)).
Defined.

(** ** [WebSocketClient] *)

Section WebSocketFacts.

Context {Handler : Type}.

Local Abbreviation ws_calls := (WebSocketClient.calls (Handler:=Handler)).
Local Abbreviation ws_call := (WebSocketClient.call (Handler:=Handler)).

Lemma ws_calls_snoc self cs c : ws_calls self (cs ++ [c]) = ws_call (ws_calls self cs) c.
Proof. unfold WebSocketClient.calls. by rewrite foldl_app. Qed.

(** X20.  After any sequence of calls the client is connected exactly
    when the last [connect] or [disconnect] among them was a [connect]
    (or, with neither among them, when it was connected before); [send]
    then returns that flag, [receive] returns a message exactly when it
    is set, and the URI is the one the client was made with.  Sending,
    receiving and registering handlers never change the connection. *)
Theorem websocket_connection_state (self : WebSocketClient.t Handler) cs :
  let self' := ws_calls self cs in
  WebSocketClient.is_connected self'
  = match last (filter (fun c => WebSocketClient.switches c = true) cs) with
    | Some WebSocketClient.Connect => true
    | Some _ => false
    | None => WebSocketClient.is_connected self
    end
  /\ (forall message,
        WebSocketClient.send self' message = WebSocketClient.is_connected self')
  /\ (is_Some (WebSocketClient.receive self')
      <-> WebSocketClient.is_connected self' = true)
  /\ WebSocketClient.uri self' = WebSocketClient.uri self.
Proof.
  cbv zeta. split; [|split; [|split]].
  - induction cs as [|c cs IH] using rev_ind; [done|].
    rewrite ws_calls_snoc, filter_app.
    destruct c as [| |m| |e h]; simpl;
      rewrite ?filter_cons_True, ?filter_cons_False, ?filter_nil, ?app_nil_r, ?last_snoc
        by (simpl; congruence);
      done.
  - intros message. unfold WebSocketClient.send.
    by destruct (WebSocketClient.is_connected _).
  - unfold WebSocketClient.receive.
    destruct (WebSocketClient.is_connected _); simpl; split; intros H;
      first [done | by eexists | by destruct H].
  - induction cs as [|c cs IH] using rev_ind; [done|].
    rewrite ws_calls_snoc. by destruct c.
Qed.

Lemma ws_on_lookup (self : WebSocketClient.t Handler) event handler event' :
  WebSocketClient._handlers (WebSocketClient.on self event handler) !! event'
  = if String.eqb event event'
    then Some (default [] (WebSocketClient._handlers self !! event') ++ [handler])%list
    else WebSocketClient._handlers self !! event'.
Proof.
  unfold WebSocketClient.on. simpl.
  destruct (String.eqb_spec event event') as [<-|Hne].
  - rewrite lookup_insert_eq.
    destruct (WebSocketClient._handlers self !! event) eqn:Hl; simpl.
    + by rewrite Hl.
    + by rewrite lookup_insert_eq.
  - rewrite lookup_insert_ne by done.
    destruct (WebSocketClient._handlers self !! event) eqn:Hl; [done|].
    by rewrite lookup_insert_ne.
Qed.

(** X21.  The handlers of an event are the ones it had, followed by the
    handlers that the calls of [on] registered for it, in the order of
    the calls and with repetitions kept; an event has an entry in
    [_handlers] exactly when it had one or [on] was called for it.
    Handlers of other events, and all other calls, leave the list of an
    event alone. *)
Theorem websocket_handlers (self : WebSocketClient.t Handler) cs event :
  let self' := ws_calls self cs in
  default [] (WebSocketClient._handlers self' !! event)
  = (default [] (WebSocketClient._handlers self !! event)
     ++ WebSocketClient.registered event cs)%list
  /\ (is_Some (WebSocketClient._handlers self' !! event)
      <-> is_Some (WebSocketClient._handlers self !! event)
          \/ exists handler, WebSocketClient.On event handler ∈ cs).
Proof.
  cbv zeta.
  induction cs as [|c cs [IH1 IH2]] using rev_ind.
  - simpl. rewrite app_nil_r. split; [done|].
    split; [by left|]. intros [H|[h H]]; [done|]. by apply elem_of_nil in H.
  - rewrite ws_calls_snoc. unfold WebSocketClient.registered.
    rewrite omap_app. fold (WebSocketClient.registered event cs).
    assert (Hin : forall h,
      WebSocketClient.On event h ∈ (cs ++ [c])%list
      <-> WebSocketClient.On event h ∈ cs \/ c = WebSocketClient.On event h).
    { intros h. rewrite elem_of_app, list_elem_of_singleton. naive_solver. }
    destruct c as [| |m| |e h];
      try (simpl; rewrite app_nil_r; split; [done|]; rewrite IH2;
           setoid_rewrite Hin; naive_solver).
    unfold WebSocketClient.call. rewrite ws_on_lookup. cbn [omap list_omap].
    unfold WebSocketClient.calls in *.
    destruct (String.eqb_spec e event) as [->|Hne]; simpl.
    + rewrite IH1, <- app_assoc. split; [done|].
      split; [|by eexists]. intros _. right. exists h. apply Hin. by right.
    + rewrite app_nil_r. split; [done|]. rewrite IH2.
      setoid_rewrite Hin. naive_solver.
Qed.

End WebSocketFacts.

(** Two handlers for [message] and one for [close], around a reconnect. *)
Example websocket_session :
  let self := WebSocketClient.calls (WebSocketClient.init "ws://localhost:8765")
                [WebSocketClient.On "message" 1%nat; WebSocketClient.Connect;
                 WebSocketClient.On "close" 2%nat; WebSocketClient.Disconnect;
                 WebSocketClient.Connect; WebSocketClient.On "message" 3%nat] in
  WebSocketClient.send self "ping" = true
  /\ WebSocketClient._handlers self !! "message" = Some [1%nat; 3%nat]
  /\ WebSocketClient._handlers self !! "close" = Some [2%nat]
  /\ WebSocketClient._handlers self !! "open" = None.
Proof. by vm_compute. Qed.

(** ** The query and the variables of [graphql_request] *)

(** X22.  The variables sent with a GraphQL query hold every form and
    every JSON variable, the JSON value where a name is given both ways,
    and nothing else; and no variables at all, rather than an empty
    dictionary, when none was given. *)
Theorem all_variables_merge form_vars json_vars :
  (all_variables form_vars json_vars = None <-> form_vars = ∅ /\ json_vars = ∅)
  /\ all_variables form_vars json_vars <> Some ∅
  /\ forall vars, all_variables form_vars json_vars = Some vars ->
       forall name,
         vars !! name
         = match json_vars !! name with
           | Some v => Some v
           | None => form_vars !! name
           end.
Proof.
  assert (Hempty : json_vars ∪ form_vars = ∅ -> form_vars = ∅ /\ json_vars = ∅).
  { intros H. pose proof (map_positive_l _ _ H) as Hj. subst json_vars.
    by rewrite (left_id_L ∅ (∪)) in H. }
  assert (Hstable : forall m : gmap string PyValue, ~ m <> ∅ -> m = ∅).
  { intros m H. by destruct (decide (m = ∅)). }
  unfold all_variables. split; [|split].
  - repeat case_bool_decide; simpl; naive_solver.
  - repeat case_bool_decide; simpl; naive_solver.
  - intros vars Hvars name.
    assert (vars = json_vars ∪ form_vars) as ->.
    { revert Hvars. repeat case_bool_decide; simpl; congruence. }
    rewrite lookup_union.
    by destruct (json_vars !! name), (form_vars !! name).
Qed.

Section QueryFacts.

Variable read_file : string -> FileRead.
Variable introspection_query : string.

Local Abbreviation text_of := (query_text read_file introspection_query).

(** X23.  A non-empty [--query] is the query, whatever [--file] and
    [--introspect] say; without it a non-empty [--file] decides, also
    over [--introspect], and an empty [--query] counts as none.  The
    command exits, with code 1, exactly when the file it turns to cannot
    be read, or none of the three is given. *)
Theorem query_text_priority query query_file introspect :
  (str_truthy query = true ->
   text_of query query_file introspect = inr (default "" query))
  /\ (str_truthy query = false -> str_truthy query_file = true ->
      text_of query query_file introspect = text_of None query_file false
      /\ forall text,
           read_file (default "" query_file) = FileContent text ->
           text_of query query_file introspect = inr text)
  /\ (forall code,
        text_of query query_file introspect = inl code <->
        code = 1%Z /\ str_truthy query = false
        /\ if str_truthy query_file
           then forall text, read_file (default "" query_file) <> FileContent text
           else introspect = false).
Proof.
  unfold query_text. split; [|split].
  - by intros ->.
  - intros -> ->. simpl. split; [done|]. by intros text ->.
  - intros code. simpl.
    destruct (str_truthy query); [naive_solver|].
    destruct (str_truthy query_file).
    + destruct (read_file (default "" query_file)) as [text| |msg]; naive_solver.
    + destruct introspect; naive_solver.
Qed.

End QueryFacts.

(** [--query ''] together with [--file users.graphql --introspect]. *)
Example query_text_empty_query :
  query_text one_query_file "query IntrospectionQuery" (Some "") (Some "users.graphql") true
  = inr "query { users { id } }".
Proof. reflexivity. Qed.

(** [-v id=1 -v id:=2]: the JSON value is sent. *)
Example all_variables_both :
  all_variables {[ "id" := PyStr "1" ]} {[ "id" := PyInt 2; "first" := PyInt 10 ]}
  = Some {[ "id" := PyInt 2; "first" := PyInt 10 ]}.
Proof. by vm_compute. Qed.

Lemma query_text_priority_witness :
  query_text one_query_file "query IntrospectionQuery" (Some "{ me }") (Some "missing.graphql") true
  = inr "{ me }".
Proof.
  apply (proj1 (query_text_priority one_query_file "query IntrospectionQuery"
                  (Some "{ me }") (Some "missing.graphql") true)).
  reflexivity.
Defined.

(** ** Repeated runs of [cache config] *)

Lemma overlay_twice o c : overlay o (overlay o c) = overlay o c.
Proof. by destruct o as [[?|] [?|] [?|] [?|] [?|] [?|]]. Qed.

Lemma overlay_no_options c : overlay no_options c = c.
Proof. by destruct c. Qed.

Section ConfigRuns.

Variable platform_cache_dir : string.
Variable validate : CacheConfig -> bool.

Local Abbreviation run_config :=
  (cache_management platform_cache_dir validate "config").

(** X24.  A run of [cache config] that went through can be repeated: the
    same options once more, or no option at all, go through again and
    leave the cache exactly as the first run left it.  So the dump of
    the configuration with nothing written over it is accepted back by
    the constructor whenever the configuration itself was accepted. *)
Theorem config_action_idempotent o cache cache'
    (Hrun : run_config o cache = (Finished, cache')) :
  run_config o cache' = (Finished, cache')
  /\ run_config no_options cache' = (Finished, cache').
Proof.
  revert Hrun. rewrite !cache_management_config.
  destruct (validate (overlay o (config cache))) eqn:Hv; [|done].
  intros [= <-]. simpl.
  rewrite overlay_twice, overlay_no_options, Hv. done.
Qed.

End ConfigRuns.

(** [talkie cache config --ttl 5 --no-cache-get], twice. *)
Lemma config_action_idempotent_witness :
  cache_management "cache" positive_limits "config"
    (mkConfigOptions (Some 5%Z) None None None (Some false) None)
    (mkResponseCache (mkCacheConfig true 5 1000 100 false false true "cache") [])
  = (Finished,
     mkResponseCache (mkCacheConfig true 5 1000 100 false false true "cache") []).
Proof.
  apply (proj1 (config_action_idempotent "cache" positive_limits
                  (mkConfigOptions (Some 5%Z) None None None (Some false) None)
                  (mkResponseCache (default_config "cache") [])
                  (mkResponseCache (mkCacheConfig true 5 1000 100 false false true "cache") [])
                  ltac:(by vm_compute))).
Defined.
